(** * Texttable: a shallow embedding of the fixed-width table renderer

    The renderer lives in [batch_get_recent_summary.py] (class [Texttable]).
    Python strings are modelled as [string] (one [ascii] per character),
    Python integers as [Z], a list as [list], an attribute that may not
    exist yet ([hasattr]) as an [option], and a method that mutates [self]
    or raises as a function from the table to a result and the table as it
    is when the call ends: an exception does not roll anything back. *)

From Stdlib Require Import ZArith QArith Qround Qabs String Ascii DecimalString Lia.
From stdpp Require Import prelude strings.

Local Open Scope Z_scope.

(** ** Python values, exceptions *)

(** A Python float: NaN, an infinity, or a finite value given by the
    rational it denotes (every finite double is one).  The sign of a zero is
    not kept. *)
Inductive pyfloat :=
| Fnan
| Finf (negative : bool)
| Ffin (q : Q).

(** The values a caller hands to the table: [str], [None], [int], [float],
    and any other built-in object ([list], [dict], [bytes] that is not a
    number, ...), which [float()] and [int()] reject with [TypeError] and
    which has no [encode] attribute. *)
Inductive pyval :=
| PStr (s : string)
| PNone
| PInt (z : Z)
| PFloat (f : pyfloat)
| PObj.

Inductive exc :=
| ArraySizeError (msg : string)
| ValueError
| TypeError
| AttributeError
| IndexError
| OverflowError
| ZeroDivisionError
| Diverges. (* not a Python exception: a loop of the model ran out of fuel *)

Inductive result (A : Type) :=
| Ok (a : A)
| Raise (e : exc).
Arguments Ok {A} a.
Arguments Raise {A} e.

Definition rbind {A B} (r : result A) (k : A -> result B) : result B :=
  match r with
  | Ok a => k a
  | Raise e => Raise e
  end.

Fixpoint rmap {A B} (f : A -> result B) (l : list A) : result (list B) :=
  match l with
  | [] => Ok []
  | x :: l' =>
      rbind (f x) (fun y => rbind (rmap f l') (fun ys => Ok (y :: ys)))
  end.

(** ** Strings *)

Definition ESC : ascii := ascii_of_nat 27.
Definition TAB : ascii := ascii_of_nat 9.
Definition NL : ascii := ascii_of_nat 10.
Definition nl : string := String NL EmptyString.

(** The module redefines [len]; on a [str] the attempt to decode raises
    and the handler returns [__len__()], the number of characters. *)
Definition len (s : string) : Z := Z.of_nat (String.length s).

Definition llen {A} (l : list A) : Z := Z.of_nat (length l).

(** [s * n] *)
Definition str_mul (s : string) (n : Z) : string :=
  Nat.iter (Z.to_nat n) (String.append s) EmptyString.

(** [[x] * n] *)
Definition list_mul {A} (x : A) (n : Z) : list A := replicate (Z.to_nat n) x.

(** [sep.join(l)] *)
Fixpoint join (sep : string) (l : list string) : string :=
  match l with
  | [] => EmptyString
  | [s] => s
  | s :: l' => s +:+ sep +:+ join sep l'
  end.

(** [s.split(c)] for a one-character separator: never an empty list. *)
Fixpoint split_acc (c : ascii) (s : string) (cur : string) : list string :=
  match s with
  | EmptyString => [String.rev cur]
  | String a s' =>
      if Ascii.eqb a c then String.rev cur :: split_acc c s' EmptyString
      else split_acc c s' (String a cur)
  end.

Definition split (c : ascii) (s : string) : list string :=
  split_acc c s EmptyString.

(** [s[:1]] and [s[:-1]] *)
Definition first_char (s : string) : string :=
  match s with
  | EmptyString => EmptyString
  | String a _ => String a EmptyString
  end.

Fixpoint drop_last (s : string) : string :=
  match s with
  | EmptyString => EmptyString
  | String a EmptyString => EmptyString
  | String a s' => String a (drop_last s')
  end.

(** *** The escape-sequence pattern [\x1b[^m]*m]

    A match starts at an ESC and runs to the first [m] after it; an ESC with
    no [m] behind it matches nothing.  [cur] is the match being read, in
    reverse ([None] outside a match). *)
Fixpoint findall_from (cur : option string) (s : string) : list string :=
  match s with
  | EmptyString => []
  | String a s' =>
      match cur with
      | None =>
          if Ascii.eqb a ESC then findall_from (Some (String a EmptyString)) s'
          else findall_from None s'
      | Some acc =>
          if Ascii.eqb a "m" then String.rev (String a acc) :: findall_from None s'
          else findall_from (Some (String a acc)) s'
      end
  end.

(** [re.findall(r"\x1b[^m]*m", s)] *)
Definition findall_ansi (s : string) : list string := findall_from None s.

Fixpoint sub_from (cur : option string) (s : string) : string :=
  match s with
  | EmptyString =>
      match cur with
      | None => EmptyString
      | Some acc => String.rev acc
      end
  | String a s' =>
      match cur with
      | None =>
          if Ascii.eqb a ESC then sub_from (Some (String a EmptyString)) s'
          else String a (sub_from None s')
      | Some acc =>
          if Ascii.eqb a "m" then sub_from None s'
          else sub_from (Some (String a acc)) s'
      end
  end.

(** [re.compile(r"\x1b[^m]*m").sub("", s)] *)
Definition strip_ansi (s : string) : string := sub_from None s.

(** ** Numbers *)

(** [str(z)] for an [int] *)
Definition str_int (z : Z) : string := NilZero.string_of_int (Z.to_int z).

(** Round to the nearest integer, a tie to the even one: Python 3's
    [round(f)], and the rounding of the digits printed by [%f] and [%e]. *)
Definition round_half_even (q : Q) : Z :=
  let n := Qnum q in
  let d := Zpos (Qden q) in
  let k := n / d in
  let r := n mod d in
  if 2 * r <? d then k
  else if d <? 2 * r then k + 1
  else if Z.even k then k else k + 1.

Definition Qltb (a b : Q) : bool := negb (Qle_bool b a).

(** [floor(log_b a)] for a rational [a > 0], from the sizes of numerator
    and denominator ([size b z]: the largest [k] with [b^k <= z]). *)
Definition floor_log (b : Z) (size : Z -> Z) (a : Q) : Z :=
  let e := size (Qnum a) - size (Zpos (Qden a)) in
  if Qle_bool (inject_Z b ^ e)%Q a then e else e - 1.

Definition floor_log2 : Q -> Z := floor_log 2 Z.log2.
Definition floor_log10 : Q -> Z := floor_log 10 (fun z => len (str_int z) - 1).

(** The double nearest to a rational (ties to even); too large a magnitude
    gives an infinity. *)
Definition round_to_double (q : Q) : pyfloat :=
  if Qeq_bool q 0%Q then Ffin 0%Q
  else
    let a := Qabs q in
    let u := Z.max (floor_log2 a - 52) (-1074) in
    let v := (inject_Z (round_half_even (a * 2 ^ (- u)%Z)) * 2 ^ u)%Q in
    if Qle_bool (2 ^ 1024)%Q v then Finf (Qltb q 0%Q)
    else Ffin (Qred (if Qltb q 0%Q then (- v)%Q else v)).

Definition zeros (n : nat) : string := str_mul "0" (Z.of_nat n).

(** [s] padded on the left with zeros to [n] characters *)
Definition zfill (n : nat) (s : string) : string :=
  zeros (n - String.length s) +:+ s.

(** ["%.*f" % (n, f)]; a negative precision counts as 0. *)
Definition fmt_f (n : Z) (q : Q) : string :=
  let p := Z.to_nat n in
  let scaled := round_half_even (Qabs q * 10 ^ Z.of_nat p)%Q in
  (if Qltb q 0%Q then "-" else "")
  +:+ str_int (scaled / 10 ^ Z.of_nat p)
  +:+ (if p is O then "" else "." +:+ zfill p (str_int (scaled mod 10 ^ Z.of_nat p))).

(** ["%.*e" % (n, f)] *)
Definition fmt_e (n : Z) (q : Q) : string :=
  let p := Z.to_nat n in
  let a := Qabs q in
  let e0 := if Qeq_bool q 0%Q then 0 else floor_log10 a in
  let m0 := round_half_even (a * 10 ^ (Z.of_nat p - e0)%Z)%Q in
  let '(m, e) := if 10 ^ Z.of_nat (S p) <=? m0 then (m0 / 10, e0 + 1) else (m0, e0) in
  let digits := zfill (S p) (str_int m) in
  (if Qltb q 0%Q then "-" else "")
  +:+ first_char digits
  +:+ (if p is O then "" else "." +:+ String.substring 1 p digits)
  +:+ "e" +:+ (if e <? 0 then "-" else "+") +:+ zfill 2 (str_int (Z.abs e)).

(** *** Reading numbers: [float(x)] and [int(x)] *)

(** Characters [str.strip()] treats as blank. *)
Definition is_space (a : ascii) : bool :=
  let n := nat_of_ascii a in
  ((9 <=? n) && (n <=? 13) || (28 <=? n) && (n <=? 32) || (n =? 133) || (n =? 160))%nat.

Definition digit_of (a : ascii) : option Z :=
  let n := nat_of_ascii a in
  if ((48 <=? n) && (n <=? 57))%nat then Some (Z.of_nat n - 48) else None.

Definition lower (a : ascii) : ascii :=
  let n := nat_of_ascii a in
  if ((65 <=? n) && (n <=? 90))%nat then ascii_of_nat (n + 32) else a.

Fixpoint str_map (f : ascii -> ascii) (s : string) : string :=
  match s with
  | EmptyString => EmptyString
  | String a s' => String (f a) (str_map f s')
  end.

Fixpoint lstrip (s : string) : string :=
  match s with
  | String a s' => if is_space a then lstrip s' else s
  | EmptyString => s
  end.

Definition strip (s : string) : string :=
  String.rev (lstrip (String.rev (lstrip s))).

(** The blanks [float()] and [int()] skip at both ends of a [str]: the
    blanks above 127 are turned into spaces first, and then only what C's
    [isspace] accepts is skipped, so the separators 28 to 31, blanks for
    [str.strip()], are part of the number and spoil it. *)
Definition is_number_space (a : ascii) : bool :=
  let n := nat_of_ascii a in
  ((9 <=? n) && (n <=? 13) || (n =? 32) || (n =? 133) || (n =? 160))%nat.

Fixpoint lstrip_number (s : string) : string :=
  match s with
  | String a s' => if is_number_space a then lstrip_number s' else s
  | EmptyString => s
  end.

Definition strip_number (s : string) : string :=
  String.rev (lstrip_number (String.rev (lstrip_number s))).

(** A run of digits in which single underscores may stand between two
    digits; returns the digits read (as a number and a count) and the rest.
    [prev] tells whether the previous character was a digit. *)
Fixpoint read_digits (s : string) (acc : Z) (cnt : Z) (prev : bool) : Z * Z * string :=
  match s with
  | String a s' =>
      match digit_of a with
      | Some d => read_digits s' (10 * acc + d) (cnt + 1) true
      | None =>
          if Ascii.eqb a "_" && prev then
            match s' with
            | String b _ =>
                if digit_of b is Some _ then read_digits s' acc cnt false
                else (acc, cnt, s)
            | EmptyString => (acc, cnt, s)
            end
          else (acc, cnt, s)
      end
  | EmptyString => (acc, cnt, s)
  end.

Definition read_sign (s : string) : bool * string :=
  match s with
  | String "-" s' => (true, s')
  | String "+" s' => (false, s')
  | _ => (false, s)
  end.

(** [float(s)] for a [str]: blanks stripped, then a sign and [inf],
    [infinity] or [nan] in any case, or a decimal literal with optional
    fraction and exponent.  [None] stands for [ValueError]. *)
Definition float_of_str (s : string) : option pyfloat :=
  let '(neg, body) := read_sign (strip_number s) in
  let word := str_map lower body in
  if String.eqb word "inf" || String.eqb word "infinity" then Some (Finf neg)
  else if String.eqb word "nan" then Some Fnan
  else
    let '(ip, ni, r1) := read_digits body 0 0 false in
    let '(fp, nf, r2) :=
      match r1 with
      | String "." r => read_digits r ip 0 false
      | _ => (ip, 0, r1)
      end in
    if ni + nf =? 0 then None
    else
      let finish (ex : Z) :=
        let v := (inject_Z fp * 10 ^ (ex - nf)%Z)%Q in
        Some (round_to_double (if neg then (- v)%Q else v)) in
      match r2 with
      | EmptyString => finish 0
      | String c r =>
          if Ascii.eqb (lower c) "e" then
            let '(eneg, r3) := read_sign r in
            match read_digits r3 0 0 false with
            | (ev, ne, EmptyString) =>
                if ne =? 0 then None else finish (if eneg then - ev else ev)
            | _ => None
            end
          else None
      end.

(** [float(x)] *)
Definition py_float (x : pyval) : result pyfloat :=
  match x with
  | PFloat f => Ok f
  | PInt z =>
      match round_to_double (inject_Z z) with
      | Finf _ => Raise OverflowError
      | f => Ok f
      end
  | PStr s =>
      match float_of_str s with
      | Some f => Ok f
      | None => Raise ValueError
      end
  | PNone | PObj => Raise TypeError
  end.

(** [int(x)]: a [float] is truncated towards zero, a [str] is read as a
    decimal integer literal. *)
Definition py_int (x : pyval) : result Z :=
  match x with
  | PInt z => Ok z
  | PFloat (Ffin q) => Ok (Z.quot (Qnum q) (Zpos (Qden q)))
  | PFloat Fnan => Raise ValueError
  | PFloat (Finf _) => Raise OverflowError
  | PStr s =>
      let '(neg, body) := read_sign (strip_number s) in
      match read_digits body 0 0 false with
      | (v, n, EmptyString) =>
          if n =? 0 then Raise ValueError else Ok (if neg then - v else v)
      | _ => Raise ValueError
      end
  | PNone | PObj => Raise TypeError
  end.

(** ** The table

    [_max_width] holds 0 for Python's [False] (the constructor stores
    [False] for a width that is not positive, and the field is only tested
    for truth and used in arithmetic).  [_row_size] is [None] until an array
    is seen.  [_align], [_valign], [_dtype] and [_width] are attributes the
    constructor does not create: [None] here means [hasattr] is false. *)
Record Texttable := {
  _max_width : Z;
  _precision : Z;
  _deco : Z;
  _char_horiz : string;
  _char_vert : string;
  _char_corner : string;
  _char_header : string;
  _hline_string : option string;
  _row_size : option Z;
  _header : list string;
  _rows : list (list string);
  _align : option (list string);
  _valign : option (list string);
  _dtype : option (list string);
  _width : option (list Z);
}.


Definition assign_deco (v : Z) (self : Texttable) : Texttable :=
  {| _max_width := _max_width self; _precision := _precision self; _deco := v;
     _char_horiz := _char_horiz self; _char_vert := _char_vert self;
     _char_corner := _char_corner self; _char_header := _char_header self;
     _hline_string := _hline_string self; _row_size := _row_size self;
     _header := _header self; _rows := _rows self; _align := _align self;
     _valign := _valign self; _dtype := _dtype self; _width := _width self |}.

Definition assign_hline_string (v : option string) (self : Texttable) : Texttable :=
  {| _max_width := _max_width self; _precision := _precision self; _deco := _deco self;
     _char_horiz := _char_horiz self; _char_vert := _char_vert self;
     _char_corner := _char_corner self; _char_header := _char_header self;
     _hline_string := v; _row_size := _row_size self; _header := _header self;
     _rows := _rows self; _align := _align self; _valign := _valign self;
     _dtype := _dtype self; _width := _width self |}.

Definition assign_row_size (v : option Z) (self : Texttable) : Texttable :=
  {| _max_width := _max_width self; _precision := _precision self; _deco := _deco self;
     _char_horiz := _char_horiz self; _char_vert := _char_vert self;
     _char_corner := _char_corner self; _char_header := _char_header self;
     _hline_string := _hline_string self; _row_size := v; _header := _header self;
     _rows := _rows self; _align := _align self; _valign := _valign self;
     _dtype := _dtype self; _width := _width self |}.

Definition assign_header (v : list string) (self : Texttable) : Texttable :=
  {| _max_width := _max_width self; _precision := _precision self; _deco := _deco self;
     _char_horiz := _char_horiz self; _char_vert := _char_vert self;
     _char_corner := _char_corner self; _char_header := _char_header self;
     _hline_string := _hline_string self; _row_size := _row_size self; _header := v;
     _rows := _rows self; _align := _align self; _valign := _valign self;
     _dtype := _dtype self; _width := _width self |}.

Definition assign_rows (v : list (list string)) (self : Texttable) : Texttable :=
  {| _max_width := _max_width self; _precision := _precision self; _deco := _deco self;
     _char_horiz := _char_horiz self; _char_vert := _char_vert self;
     _char_corner := _char_corner self; _char_header := _char_header self;
     _hline_string := _hline_string self; _row_size := _row_size self;
     _header := _header self; _rows := v; _align := _align self;
     _valign := _valign self; _dtype := _dtype self; _width := _width self |}.

Definition assign_align (v : option (list string)) (self : Texttable) : Texttable :=
  {| _max_width := _max_width self; _precision := _precision self; _deco := _deco self;
     _char_horiz := _char_horiz self; _char_vert := _char_vert self;
     _char_corner := _char_corner self; _char_header := _char_header self;
     _hline_string := _hline_string self; _row_size := _row_size self;
     _header := _header self; _rows := _rows self; _align := v;
     _valign := _valign self; _dtype := _dtype self; _width := _width self |}.

Definition assign_valign (v : option (list string)) (self : Texttable) : Texttable :=
  {| _max_width := _max_width self; _precision := _precision self; _deco := _deco self;
     _char_horiz := _char_horiz self; _char_vert := _char_vert self;
     _char_corner := _char_corner self; _char_header := _char_header self;
     _hline_string := _hline_string self; _row_size := _row_size self;
     _header := _header self; _rows := _rows self; _align := _align self; _valign := v;
     _dtype := _dtype self; _width := _width self |}.

Definition assign_dtype (v : option (list string)) (self : Texttable) : Texttable :=
  {| _max_width := _max_width self; _precision := _precision self; _deco := _deco self;
     _char_horiz := _char_horiz self; _char_vert := _char_vert self;
     _char_corner := _char_corner self; _char_header := _char_header self;
     _hline_string := _hline_string self; _row_size := _row_size self;
     _header := _header self; _rows := _rows self; _align := _align self;
     _valign := _valign self; _dtype := v; _width := _width self |}.

Definition assign_width (v : option (list Z)) (self : Texttable) : Texttable :=
  {| _max_width := _max_width self; _precision := _precision self; _deco := _deco self;
     _char_horiz := _char_horiz self; _char_vert := _char_vert self;
     _char_corner := _char_corner self; _char_header := _char_header self;
     _hline_string := _hline_string self; _row_size := _row_size self;
     _header := _header self; _rows := _rows self; _align := _align self;
     _valign := _valign self; _dtype := _dtype self; _width := v |}.


(** A method: from the table to what the call returns or raises, and the
    table as the call leaves it. *)
Definition M (A : Type) : Type := Texttable -> result A * Texttable.

Definition ret {A} (a : A) : M A := fun self => (Ok a, self).
Definition raise {A} (e : exc) : M A := fun self => (Raise e, self).
Definition lift {A} (r : result A) : M A := fun self => (r, self).
Definition bind {A B} (m : M A) (k : A -> M B) : M B :=
  fun self =>
    match m self with
    | (Ok a, self') => k a self'
    | (Raise e, self') => (Raise e, self')
    end.
Definition get : M Texttable := fun self => (Ok self, self).
Definition modify (f : Texttable -> Texttable) : M unit := fun self => (Ok tt, f self).

Declare Scope meth_scope.
Delimit Scope meth_scope with meth.
Notation "x <- m ;; k" := (bind m (fun x => k))
  (at level 100, m at next level, right associativity) : meth_scope.
Notation "m ;;; k" := (bind m (fun _ => k))
  (at level 100, right associativity) : meth_scope.

(** [for x in l: body x] *)
Fixpoint for_each {A} (l : list A) (body : A -> M unit) : M unit :=
  match l with
  | [] => ret tt
  | x :: l' => bind (body x) (fun _ => for_each l' body)
  end.

(** [enumerate(l)] *)
Definition enumerate {A} (l : list A) : list (nat * A) := zip (seq 0 (length l)) l.

Definition BORDER : Z := 1.
Definition HEADER : Z := Z.shiftl 1 1.
Definition HLINES : Z := Z.shiftl 1 2.
Definition VLINES : Z := Z.shiftl 1 3.

Definition RESET : string := String ESC "[0m".

(** ** Methods of [Texttable] *)

Section Methods.

(** [str(f)] for a finite float (the shortest text that reads back as [f])
    is Python's business; the renderer only passes it on. *)
Variable float_repr : Q -> string.

Local Open Scope meth_scope.

(** [str(x)]; [PObj] stands for an object the model knows nothing about
    but its being neither text nor number, printed as a fixed text. *)
Definition py_str (x : pyval) : string :=
  match x with
  | PStr s => s
  | PNone => "None"
  | PInt z => str_int z
  | PFloat Fnan => "nan"
  | PFloat (Finf false) => "inf"
  | PFloat (Finf true) => "-inf"
  | PFloat (Ffin q) => float_repr q
  | PObj => "<object>"
  end.

(** [reset] *)
Definition reset : M unit :=
  modify (assign_hline_string None) ;;;
  modify (assign_row_size None) ;;;
  modify (assign_header []) ;;;
  modify (assign_rows []).


(** [__init__]; the attributes are those [set_chars(["-", "|", "+", "="])]
    and [reset()] leave. *)
Definition init (max_width : Z) : Texttable :=
  {| _max_width := if max_width <=? 0 then 0 else max_width;
     _precision := 3;
     _deco := Z.lor (Z.lor (Z.lor VLINES HLINES) BORDER) HEADER;
     _char_horiz := "-"; _char_vert := "|"; _char_corner := "+"; _char_header := "=";
     _hline_string := None;
     _row_size := None;
     _header := [];
     _rows := [];
     _align := None; _valign := None; _dtype := None; _width := None |}.

(** [set_deco] *)
Definition set_deco (deco : Z) : M unit := modify (assign_deco deco).

(** [_check_row_size]; [n] is [len(array)].  [not self._row_size] holds for
    [None] and for 0. *)
Definition _check_row_size (n : Z) : M unit :=
  self <- get ;;
  match _row_size self with
  | None | Some 0 => modify (assign_row_size (Some n))
  | Some size =>
      if negb (size =? n) then
        raise (ArraySizeError ("array should contain " +:+ str_int size +:+ " elements"))
      else ret tt
  end.

(** [set_cols_align], [set_cols_valign], [set_cols_dtype] *)
Definition set_cols_align (array : list string) : M unit :=
  _check_row_size (llen array) ;;;
  modify (assign_align (Some array)).

Definition set_cols_valign (array : list string) : M unit :=
  _check_row_size (llen array) ;;;
  modify (assign_valign (Some array)).

Definition set_cols_dtype (array : list string) : M unit :=
  _check_row_size (llen array) ;;;
  modify (assign_dtype (Some array)).

(** [reduce(f, l)] without an initial value *)
Definition reduce {A} (f : A -> A -> A) (l : list A) : result A :=
  match l with
  | [] => Raise TypeError
  | x :: l' => Ok (fold_left f l' x)
  end.

(** [set_cols_width].  The handler of [ValueError] writes a line to
    standard error and raises again; other exceptions pass it by. *)
Definition set_cols_width (array : list pyval) : M unit :=
  _check_row_size (llen array) ;;;
  ints <- lift (rmap py_int array) ;;
  smallest <- lift (reduce Z.min ints) ;;
  if smallest <=? 0 then raise ValueError
  else modify (assign_width (Some ints)).


(** [header] *)
Definition header (array : list pyval) : M unit :=
  _check_row_size (llen array) ;;;
  modify (assign_header (map py_str array)).

(** [_str]: the text of a cell.  [float(x)] raising anything, or giving NaN
    or an infinity, leads to the handler, which returns a [str] as it is
    and ["None"] for [None], and calls [x.encode] on anything else. *)
Definition as_text (x : pyval) : result string :=
  match x with
  | PStr s => Ok s
  | PNone => Ok "None"
  | _ => Raise AttributeError
  end.

Definition is_integral (f : Q) : bool :=
  Qeq_bool (f - inject_Z (round_half_even f))%Q 0%Q.

Definition exceeds_1e8 (f : Q) : bool := Qltb (inject_Z 100000000) (Qabs f).

Definition _str (self : Texttable) (i : nat) (x : pyval) : result string :=
  match py_float x with
  | Ok (Ffin f) =>
      let n := _precision self in
      match _dtype self with
      | None => Raise AttributeError
      | Some dtypes =>
          match dtypes !! i with
          | None => Raise IndexError
          | Some dtype =>
              if String.eqb dtype "i" then Ok (str_int (round_half_even f))
              else if String.eqb dtype "f" then Ok (fmt_f n f)
              else if String.eqb dtype "e" then Ok (fmt_e n f)
              else if String.eqb dtype "t" then as_text x
              else if is_integral f then
                if exceeds_1e8 f then Ok (fmt_e n f)
                else Ok (str_int (round_half_even f))
              else
                if exceeds_1e8 f then Ok (fmt_e n f)
                else Ok (fmt_f n f)
          end
      end
  | _ => as_text x
  end.

(** [add_row] *)
Definition add_row (array : list pyval) : M unit :=
  _check_row_size (llen array) ;;;
  self <- get ;;
  (if _dtype self is None then
     match _row_size self with
     | Some size => modify (assign_dtype (Some (list_mul "a"%string size)))
     | None => raise TypeError
     end
   else ret tt) ;;;
  self <- get ;;
  cells <- lift (rmap (fun '(i, x) => _str self i x) (enumerate array)) ;;
  modify (fun self => assign_rows (_rows self ++ [cells]) self).

(** [add_rows] on a two-dimensional array (a list has no [next]
    attribute, so the first row is [rows[0]]). *)
Definition add_rows (rows : list (list pyval)) (with_header : bool) : M unit :=
  rest <- (if with_header then
             match rows with
             | [] => raise IndexError
             | first :: rest => header first ;;; ret rest
             end
           else ret rows) ;;
  for_each rest add_row.

End Methods.

(** ** [textwrap.wrap] with the default options

    Tabs are expanded and blanks become spaces; the text is cut into chunks,
    runs of blanks and runs of other characters; lines are filled chunk by
    chunk, a blank chunk at either end of a line is dropped and a chunk
    longer than the width is broken.  The extra break points of the library
    after a hyphen and around a dash are left out: this is [textwrap.wrap]
    for text without ["-"]. *)

Definition is_wrap_space (a : ascii) : bool :=
  let n := nat_of_ascii a in
  ((9 <=? n) && (n <=? 13) || (n =? 32))%nat.

(** [text.expandtabs(8)]; [col] is the current column. *)
Fixpoint expandtabs (col : nat) (s : string) : string :=
  match s with
  | EmptyString => EmptyString
  | String a s' =>
      if Ascii.eqb a TAB then
        str_mul " " (Z.of_nat (8 - col mod 8)) +:+ expandtabs 0 s'
      else if Ascii.eqb a NL || Ascii.eqb a (ascii_of_nat 13) then
        String a (expandtabs 0 s')
      else String a (expandtabs (S col) s')
  end.

Definition munge_whitespace (text : string) : string :=
  str_map (fun a => if is_wrap_space a then " "%char else a) (expandtabs 0 text).

(** Chunks, [cur] being the chunk in progress (reversed) and [blank] its
    kind. *)
Fixpoint chunks_from (cur : string) (blank : bool) (s : string) : list string :=
  let flush rest := if cur is EmptyString then rest else String.rev cur :: rest in
  match s with
  | EmptyString => flush []
  | String a s' =>
      if Bool.eqb (is_wrap_space a) blank then chunks_from (String a cur) blank s'
      else flush (chunks_from (String a EmptyString) (is_wrap_space a) s')
  end.

Definition split_chunks (text : string) : list string :=
  chunks_from EmptyString false (munge_whitespace text).

Definition is_blank (chunk : string) : bool :=
  if strip chunk is EmptyString then true else false.

(** The inner loop of [_wrap_chunks]: chunks are moved to the line while
    they fit.  Returns the line (reversed), its length and the chunks
    left. *)
Fixpoint fill_line (width : Z) (chunks : list string) (cur_line : list string)
    (cur_len : Z) : list string * Z * list string :=
  match chunks with
  | c :: chunks' =>
      if cur_len + len c <=? width then
        fill_line width chunks' (c :: cur_line) (cur_len + len c)
      else (cur_line, cur_len, chunks)
  | [] => (cur_line, cur_len, chunks)
  end.

(** [_wrap_chunks]; [fuel] bounds the number of lines, and every line takes
    at least one character off the chunks. *)
Fixpoint wrap_chunks (fuel : nat) (width : Z) (chunks : list string)
    (lines : list string) : result (list string) :=
  match chunks, fuel with
  | [], _ => Ok lines
  | _, O => Raise Diverges
  | first :: rest, S fuel' =>
      let chunks :=
        if is_blank first && (if lines is [] then false else true) then rest
        else chunks in
      let '(cur_line, cur_len, chunks) := fill_line width chunks [] 0 in
      let '(cur_line, chunks) :=
        match chunks with
        | c :: chunks' =>
            if width <? len c then
              let space_left := Z.to_nat (if width <? 1 then 1 else width - cur_len) in
              (String.substring 0 space_left c :: cur_line,
               String.substring space_left (String.length c - space_left) c :: chunks')
            else (cur_line, chunks)
        | [] => (cur_line, chunks)
        end in
      let cur_line :=
        match cur_line with
        | last :: before => if is_blank last then before else cur_line
        | [] => cur_line
        end in
      wrap_chunks fuel' width chunks
        (if cur_line is [] then lines else lines ++ [join "" (rev cur_line)])
  end.

(** [textwrap.wrap(text, width)]; a tab makes at most eight characters. *)
Definition textwrap_wrap (text : string) (width : Z) : result (list string) :=
  if width <=? 0 then Raise ValueError
  else wrap_chunks (S (8 * String.length text)) width (split_chunks text) [].

(** ** Rendering *)

Local Open Scope meth_scope.

(** [_has_vlines], [_has_hlines], [_has_border], [_has_header]: [&] binds
    tighter than [>]. *)
Definition _has_vlines (self : Texttable) : bool := Z.land (_deco self) VLINES >? 0.
Definition _has_hlines (self : Texttable) : bool := Z.land (_deco self) HLINES >? 0.
Definition _has_border (self : Texttable) : bool := Z.land (_deco self) BORDER >? 0.
Definition _has_header (self : Texttable) : bool := Z.land (_deco self) HEADER >? 0.

Definition the_width (self : Texttable) : result (list Z) :=
  match _width self with
  | Some w => Ok w
  | None => Raise AttributeError
  end.

(** [_build_hline] *)
Definition _build_hline (self : Texttable) (is_header : bool) : result string :=
  let horiz := if is_header then _char_header self else _char_horiz self in
  let s := horiz +:+ (if _has_vlines self then _char_corner self else horiz) +:+ horiz in
  rbind (the_width self) (fun width =>
  let l := join s (map (fun n => str_mul horiz n) width) in
  if _has_border self then
    Ok (_char_corner self +:+ horiz +:+ l +:+ horiz +:+ _char_corner self +:+ nl)
  else Ok (l +:+ nl)).

(** [_hline_header] *)
Definition _hline_header : M string := fun self => (_build_hline self true, self).

(** [_hline]: the line is built once and kept in [_hline_string]. *)
Definition _hline : M string :=
  self <- get ;;
  match _hline_string self with
  | Some (String a s) => ret (String a s)
  | _ =>
      l <- lift (_build_hline self false) ;;
      modify (assign_hline_string (Some l)) ;;;
      ret l
  end.

(** [_len_cell]: the length of one line, a tab reaching to the next
    multiple of 8. *)
Definition line_length (line : string) : Z :=
  let parts := split TAB line in
  fold_left
    (fun length '(part, i) =>
       let length := length + len part in
       if i <? llen parts then (length / 8 + 1) * 8 else length)
    (zip parts (map Z.of_nat (seq 1 (length parts)))) 0.

Definition _len_cell (cell : string) : Z :=
  let cell_lines := split NL (strip_ansi cell) in
  fold_left (fun maxi line => Z.max maxi (line_length line)) cell_lines 0.

(** The widest cell of every column: [maxi[i] = max(maxi[i], ...)], and
    [maxi.append(...)] when [maxi[i]] raises [IndexError]. *)
Definition widen (maxi : list Z) (row : list string) : list Z :=
  fold_left
    (fun maxi '(cell, i) =>
       match maxi !! i with
       | Some m => <[i := Z.max m (_len_cell cell)]> maxi
       | None => maxi ++ [_len_cell cell]
       end)
    (zip row (seq 0 (length row))) maxi.

Definition natural_widths (self : Texttable) : list Z :=
  let maxi := if _header self is [] then [] else map _len_cell (_header self) in
  fold_left widen (_rows self) maxi.

(** The state of the redistribution: the widths, the free space and the
    number of oversized columns. *)
Definition redist : Type := list Z * Z * Z.

Definition rfold {A B} (f : B -> A -> result B) (l : list A) (b : B) : result B :=
  fold_left (fun r x => rbind r (fun b => f b x)) l (Ok b).

(** First loop: a column that needs less than the equal share gives the
    rest away, a column that needs more is counted. *)
Definition shrink_step (st : redist) (c : nat * Z) : result redist :=
  let '(maxi, free, oversized) := st in
  let '(col, max_len) := c in
  match maxi !! col with
  | None => Raise IndexError
  | Some current_length =>
      if current_length >? max_len then
        Ok (<[col := max_len]> maxi, free + (current_length - max_len), oversized)
      else if max_len >? current_length then Ok (maxi, free, oversized + 1)
      else Ok st
  end.

(** [int(math.ceil(float(a) / float(b)))], taken exactly (the quotient of
    two lengths is far from the precision of a double). *)
Definition ceil_div (a b : Z) : Z := - ((- a) / b).

(** One column in one pass of the [while] loop. *)
Definition grow_step (free_part : Z) (st : redist) (c : nat * Z) : result redist :=
  let '(maxi, free, oversized) := st in
  let '(col, max_len) := c in
  match maxi !! col with
  | None => Raise IndexError
  | Some current_length =>
      if current_length <? max_len then
        let needed := max_len - current_length in
        if needed <=? free_part then
          Ok (<[col := max_len]> maxi, free - needed, oversized - 1)
        else
          Ok (<[col := current_length + free_part]> maxi, free - free_part, oversized)
      else Ok st
  end.

(** [while free > 0]: [fuel] passes at most. *)
Fixpoint distribute (fuel : nat) (max_lengths : list Z) (st : redist) : result redist :=
  let '(_, free, oversized) := st in
  if free >? 0 then
    match fuel with
    | O => Raise Diverges
    | S fuel' =>
        if oversized =? 0 then Raise ZeroDivisionError
        else
          rbind (rfold (grow_step (ceil_div free oversized)) (enumerate max_lengths) st)
                (distribute fuel' max_lengths)
    end
  else Ok st.

(** The two loops of the shrinking branch, from the natural widths; a pass
    of the second loop takes at least 1 from [free], hence the fuel. *)
Definition shrink_widths (max_width : Z) (max_lengths : list Z) : result redist :=
  let items := llen max_lengths in
  let maxi := map (fun _ => (max_width - items * 3 - 1) / items) (seq 0 (length max_lengths)) in
  rbind (rfold shrink_step (enumerate max_lengths) (maxi, 0, 0)) (fun st =>
  distribute (Z.to_nat (snd (fst st))) max_lengths st).

(** [_compute_cols_width] *)
Definition _compute_cols_width : M unit :=
  self <- get ;;
  if _width self is Some _ then ret tt
  else
    let maxi := natural_widths self in
    let items := llen maxi in
    length <- lift (reduce Z.add maxi) ;;
    if negb (_max_width self =? 0) && (length + items * 3 + 1 >? _max_width self) then
      st <- lift (shrink_widths (_max_width self) maxi) ;;
      modify (assign_width (Some (fst (fst st))))
    else modify (assign_width (Some maxi)).

(** [_check_align] *)
Definition _check_align : M unit :=
  self <- get ;;
  (if _align self is None then
     match _row_size self with
     | Some size => modify (assign_align (Some (list_mul "l"%string size)))
     | None => raise TypeError
     end
   else ret tt) ;;;
  self <- get ;;
  if _valign self is None then
    match _row_size self with
    | Some size => modify (assign_valign (Some (list_mul "t"%string size)))
    | None => raise TypeError
    end
  else ret tt.

(** The codes still open after the matches [codes], from the stack
    [ansi_keep] (its top is the last element): a reset pops, any other code
    is pushed. *)
Definition keep_step (ansi_keep : list string) (a : string) : list string :=
  if String.eqb a RESET then
    (if ansi_keep is [] then ansi_keep else removelast ansi_keep)
  else ansi_keep ++ [a].

Definition open_codes (c : string) : list string :=
  fold_left keep_step (findall_ansi c) [].

(** The body of [for c in cell.split("\n")] up to the call of
    [textwrap.wrap]: the text handed to it, the width added for the escape
    sequences, and the codes kept for the next line of the cell. *)
Definition prepare_line (ansi_keep : list string) (c : string) : string * Z * list string :=
  let c := join "" ansi_keep +:+ c in
  let codes := findall_ansi c in
  let ansi_keep := fold_left keep_step codes [] in
  let extra_width := fold_left (fun w a => w + len a) codes 0 in
  let closing := str_mul RESET (llen ansi_keep) in
  (c +:+ closing, extra_width + len closing, ansi_keep).

(** The lines of one cell *)
Fixpoint wrap_lines (width : Z) (ansi_keep : list string) (lines : list string)
    : result (list string) :=
  match lines with
  | [] => Ok []
  | c :: lines' =>
      let '(c, extra_width, ansi_keep) := prepare_line ansi_keep c in
      rbind (textwrap_wrap c (width + extra_width)) (fun wrapped =>
      rbind (wrap_lines width ansi_keep lines') (fun array =>
      Ok (wrapped ++ array)))
  end.

Definition wrap_cell (cell : string) (width : Z) : result (list string) :=
  wrap_lines width [] (split NL cell).

(** The vertical fill of one cell *)
Definition fill_cell (max_cell_lines : Z) (isheader : bool) (cell : list string)
    (valign : string) : list string :=
  let valign := if isheader then "t"%string else valign in
  let missing := max_cell_lines - llen cell in
  if String.eqb valign "m" then
    list_mul ""%string (missing / 2) ++ cell ++ list_mul ""%string (missing / 2 + missing mod 2)
  else if String.eqb valign "b" then list_mul ""%string missing ++ cell
  else cell ++ list_mul ""%string missing.

(** [for cell, valign in zip(line_wrapped, self._valign)]: the cells are
    filled in place, those past the end of [_valign] stay as they are. *)
Fixpoint fill_cells (max_cell_lines : Z) (isheader : bool)
    (line_wrapped : list (list string)) (valigns : list string) : list (list string) :=
  match line_wrapped, valigns with
  | cell :: cells, valign :: valigns' =>
      fill_cell max_cell_lines isheader cell valign
      :: fill_cells max_cell_lines isheader cells valigns'
  | _, _ => line_wrapped
  end.

(** [_splitit] *)
Definition _splitit (self : Texttable) (line : list string) (isheader : bool)
    : result (list (list string)) :=
  rbind (the_width self) (fun width =>
  rbind (rmap (fun '(cell, w) => wrap_cell cell w) (zip line width)) (fun line_wrapped =>
  rbind (reduce Z.max (map llen line_wrapped)) (fun max_cell_lines =>
  match _valign self with
  | None => Raise AttributeError
  | Some valigns => Ok (fill_cells max_cell_lines isheader line_wrapped valigns)
  end))).

(** One cell on one physical line, in [_draw_line] *)
Definition draw_cell (self : Texttable) (isheader : bool) (i : nat) (count : Z)
    (length : Z) (cell : list string) (width : Z) (align : string) : result string :=
  match cell !! i with
  | None => Raise IndexError
  | Some cell_line =>
      let fill := width - len (strip_ansi cell_line) in
      let align := if isheader then "c"%string else align in
      let body :=
        if String.eqb align "r" then str_mul " " fill +:+ cell_line +:+ " "
        else if String.eqb align "c" then
          str_mul " " (fill / 2) +:+ cell_line +:+ str_mul " " (fill / 2 + fill mod 2) +:+ " "
        else cell_line +:+ str_mul " " fill +:+ " " in
      Ok (body +:+
          (if length <? count then
             (if _has_vlines self then _char_vert self else " ") +:+ " "
           else ""))
  end.

Fixpoint zip3 {A B C} (la : list A) (lb : list B) (lc : list C) : list (A * B * C) :=
  match la, lb, lc with
  | a :: la', b :: lb', c :: lc' => (a, b, c) :: zip3 la' lb' lc'
  | _, _, _ => []
  end.

(** [_draw_line] *)
Definition _draw_line (self : Texttable) (line : list string) (isheader : bool)
    : result string :=
  rbind (_splitit self line isheader) (fun line =>
  match line with
  | [] => Raise IndexError
  | first :: _ =>
      rbind (the_width self) (fun widths =>
      match _align self with
      | None => Raise AttributeError
      | Some aligns =>
          rfold
            (fun out i =>
               let out := if _has_border self then out +:+ _char_vert self +:+ " " else out in
               rbind
                 (rfold
                    (fun '(out, length) '(cell, width, align) =>
                       let length := length + 1 in
                       rbind (draw_cell self isheader i (llen line) length cell width align)
                             (fun s => Ok (out +:+ s, length)))
                    (zip3 line widths aligns) (out, 0))
                 (fun '(out, _) =>
                    Ok (out +:+ (if _has_border self then _char_vert self else "") +:+ nl)))
            (seq 0 (length first)) ""%string
      end)
  end).

(** [for row in self._rows] in [draw] *)
Fixpoint draw_rows (rows : list (list string)) (out : string) (length : Z) : M string :=
  match rows with
  | [] => ret out
  | row :: rows' =>
      let length := length + 1 in
      self <- get ;;
      l <- lift (_draw_line self row false) ;;
      if _has_hlines self && (length <? llen (_rows self)) then
        h <- _hline ;; draw_rows rows' (out +:+ l +:+ h) length
      else draw_rows rows' (out +:+ l) length
  end.

(** [draw]: [None] for a table with neither header nor rows. *)
Definition draw : M (option string) :=
  self <- get ;;
  if (if _header self is [] then true else false) && (if _rows self is [] then true else false)
  then ret None
  else
    _compute_cols_width ;;;
    _check_align ;;;
    self <- get ;;
    out <- (if _has_border self then _hline else ret ""%string) ;;
    self <- get ;;
    out <- (if _header self is [] then ret out
            else
              l <- lift (_draw_line self (_header self) true) ;;
              if _has_header self then
                h <- _hline_header ;; ret (out +:+ l +:+ h)
              else ret (out +:+ l)) ;;
    self <- get ;;
    out <- draw_rows (_rows self) out 0 ;;
    self <- get ;;
    out <- (if _has_border self then h <- _hline ;; ret (out +:+ h) else ret out) ;;
    ret (Some (drop_last out)).

(** ** The redistribution as the specification words it

    Every column starts at the equal budget.  A column whose natural width
    is below the budget surrenders its slack to a free pool.  Then the
    columns still oversized are topped up in passes, each of them by at
    most [ceil(free / oversized_count)], a column that reaches its natural
    width leaving the oversized set, until nothing is left in the pool. *)

Definition sum_of (l : list Z) : Z := fold_right Z.add 0 l.

Record column := { natural : Z; current : Z }.










(** ** Auxiliary definitions for the proofs *)

(** The columns of the specification behind a state of the code *)
Definition columns (max_lengths maxi : list Z) : list column :=
  zip_with (fun n c => {| natural := n; current := c |}) max_lengths maxi.


(** Where the escape-sequence scan of [s] ends: inside a match or not *)
Fixpoint scan_end (cur : option string) (s : string) : option string :=
  match s with
  | EmptyString => cur
  | String a s' =>
      match cur with
      | None => scan_end (if Ascii.eqb a ESC then Some (String a EmptyString) else None) s'
      | Some acc => scan_end (if Ascii.eqb a "m" then None else Some (String a acc)) s'
      end
  end.

(** No escape sequence of [s] is cut short *)
Definition terminated (s : string) : Prop := scan_end None s = None.


(** The column count is fixed: [self._row_size] is true *)
Definition fixed_count (self : Texttable) (n : Z) : Prop :=
  _row_size self = Some n /\ n <> 0.

Definition sizing_error (n : Z) : exc :=
  ArraySizeError ("array should contain " +:+ str_int n +:+ " elements").

Definition is_sizing_error (e : exc) : Prop :=
  match e with
  | ArraySizeError _ => True
  | _ => False
  end.

(** The number of characters in a list of chunks *)
Definition chars (chunks : list string) : nat := list_sum (map String.length chunks).

(** The call leaves [_width] as it finds it *)
Definition keeps_width {A} (m : M A) : Prop :=
  forall self, _width (snd (m self)) = _width self.

(** The call ended in a sizing error *)
Definition fails_sizing {A} (r : result A * Texttable) : Prop :=
  match fst r with
  | Raise e => is_sizing_error e
  | Ok _ => False
  end.

(** ** Tables used as examples *)

(** A fresh table of width 30 with one row of three cells of 20 characters *)
Definition table_20_20_20 : Texttable :=
  snd (add_row [PStr (str_mul "a" 20); PStr (str_mul "b" 20); PStr (str_mul "c" 20)] (init 30)).

(** A fresh table of width 40 with one row of cells of 9, 50 and 50
    characters *)
Definition table_9_50_50 : Texttable :=
  snd (add_row [PStr (str_mul "a" 9); PStr (str_mul "b" 50); PStr (str_mul "c" 50)] (init 40)).

(** A fresh table, a one-character row added and the table rendered *)
Definition table_rendered_once : Texttable :=
  snd (bind (add_row [PStr "a"]) (fun _ => draw) (init 80)).

(** A fresh table with automatic columns and the default precision 3 *)
Definition table_auto : Texttable :=
  assign_dtype (Some ["a"; "a"]%string) (init 80).

(** A red ["aaa bbb"]: the colour is opened before and reset behind *)
Definition red_text : string := String ESC "[91maaa bbb" +:+ RESET.

(** ** Colours: [bcolors] and [get_color_string] *)

Module bcolors.
Definition PURPLE : string := String ESC "[95m".
Definition BLUE : string := String ESC "[94m".
Definition GREEN : string := String ESC "[92m".
Definition YELLOW : string := String ESC "[93m".
Definition RED : string := String ESC "[91m".
Definition ENDC : string := String ESC "[0m".
Definition WHITE : string := "".
Definition BOLD : string := String ESC "[1m".
Definition UNDERLINE : string := String ESC "[4m".
Definition all : list string :=
  [PURPLE; BLUE; GREEN; YELLOW; RED; ENDC; WHITE; BOLD; UNDERLINE].
End bcolors.

(** [get_color_string] *)
Definition get_color_string (type : string) (text : string) : string :=
  let ending := if String.eqb type bcolors.WHITE then ""%string else bcolors.ENDC in
  type +:+ text +:+ ending.

(** [c] occurs in [s] *)
Fixpoint occurs (c : ascii) (s : string) : bool :=
  match s with
  | EmptyString => false
  | String a s' => Ascii.eqb a c || occurs c s'
  end.

(** One part of a line in [_len_cell]: [n] is the number of parts, [i] the
    number of this one. *)
Definition tab_step (n : Z) : Z -> string * Z -> Z :=
  fun length '(part, i) =>
    let length := length + len part in
    if i <? n then (length / 8 + 1) * 8 else length.


(** The border characters are single characters *)
Definition single_chars (self : Texttable) : Prop :=
  len (_char_horiz self) = 1 /\ len (_char_vert self) = 1
  /\ len (_char_corner self) = 1 /\ len (_char_header self) = 1.

(** A fresh table of width 80 with one row of two texts *)
Definition table_auto_row : Texttable :=
  snd (add_row [PStr "id"; PStr "Example"] (init 80)).

(** The rows and the header have as many cells as the column count says,
    and there is nothing in a table without a count; a count of 0 is left
    out, [_check_row_size] taking it for no count. *)
Definition rectangular (self : Texttable) : Prop :=
  match _row_size self with
  | None => _rows self = [] /\ _header self = []
  | Some n =>
      n <> 0
      /\ Forall (fun row => llen row = n) (_rows self)
      /\ (_header self = [] \/ llen (_header self) = n)
  end.

(** A fresh table of width 80 with a header of two cells *)
Definition table_with_header : Texttable :=
  assign_header ["id"; "name"]%string (assign_row_size (Some 2) (init 80)).

(** The table once [_hline] has run on it: the line between the rows is
    kept in [_hline_string], unless one is kept there already or the line
    cannot be built. *)
Definition with_hline (self : Texttable) : Texttable :=
  match _hline_string self with
  | Some (String _ _) => self
  | _ =>
      match _build_hline self false with
      | Ok l => assign_hline_string (Some l) self
      | Raise _ => self
      end
  end.

(** A step of a rendering that returns changes nothing but the kept line,
    and returns the same on the table that has the line. *)
Definition repeatable {A} (m : M A) : Prop :=
  forall self a self',
    m self = (Ok a, self') ->
    (self' = self \/ self' = with_hline self)
    /\ m (with_hline self) = (Ok a, with_hline self).

(** The cells of a logical row, as [_splitit] returns them, are ready to be
    drawn in columns of the given widths: there is a cell for every width,
    each cell has [height] physical lines, and every line is plain text no
    longer than its column is wide. *)
Definition fits (cells : list (list string)) (widths : list Z) (height : nat) : Prop :=
  Forall2
    (fun cell width =>
       length cell = height
       /\ Forall (fun l => occurs ESC l = false /\ len l <= width) cell)
    cells widths.

(** The length of a physical line of a row: the widths, a blank before and
    behind every cell, the separators between the cells and the border. *)
Definition row_line_length (self : Texttable) (widths : list Z) : Z :=
  sum_of widths + 3 * llen widths + (if _has_border self then 1 else -2).

(** * Properties *)



(** *** [textwrap.wrap] returns: the fuel of the model is never used up *)

Lemma length_append (a b : string) :
  String.length (a +:+ b) = (String.length a + String.length b)%nat.
Proof. induction a as [|x a IH]; [reflexivity|simpl; lia]. Qed.

Lemma length_rev (s : string) : String.length (String.rev s) = String.length s.
Proof.
  unfold String.rev.
  assert (H : forall s1 s2, String.length (String.rev_app s1 s2)
                            = (String.length s1 + String.length s2)%nat).
  { induction s1 as [|x s1 IH]; intros s2; simpl; [reflexivity|]. rewrite IH. simpl. lia. }
  rewrite H. simpl. lia.
Qed.

Lemma length_str_mul (s : string) (n : nat) :
  String.length (str_mul s (Z.of_nat n)) = (n * String.length s)%nat.
Proof.
  unfold str_mul. rewrite Nat2Z.id. induction n as [|n IH]; [reflexivity|].
  change (Nat.iter (S n) (String.append s) EmptyString)
    with (s +:+ Nat.iter n (String.append s) EmptyString).
  rewrite length_append, IH. lia.
Qed.

Lemma length_str_map (f : ascii -> ascii) (s : string) :
  String.length (str_map f s) = String.length s.
Proof. induction s as [|x s IH]; simpl; [reflexivity|]. by rewrite IH. Qed.

Lemma length_expandtabs (s : string) : forall col,
  (String.length (expandtabs col s) <= 8 * String.length s)%nat.
Proof.
  induction s as [|x s IH]; intros col; [simpl; lia|].
  cbn [expandtabs]. destruct (Ascii.eqb x TAB).
  - rewrite length_append, length_str_mul. specialize (IH 0%nat).
    change (String.length (String x s)) with (S (String.length s)).
    change (String.length " ") with 1%nat. lia.
  - destruct (Ascii.eqb x NL || Ascii.eqb x (ascii_of_nat 13));
      change (String.length (String x s)) with (S (String.length s));
      [specialize (IH 0%nat)|specialize (IH (S col))]; simpl String.length; lia.
Qed.

Lemma length_substring (s : string) : forall n m,
  (n + m <= String.length s)%nat -> String.length (String.substring n m s) = m.
Proof.
  induction s as [|x s IH]; intros n m H; simpl in H.
  - destruct n, m; simpl in *; try lia; reflexivity.
  - destruct n as [|n]; simpl.
    + destruct m as [|m]; [reflexivity|]. simpl. rewrite IH; lia.
    + apply IH. lia.
Qed.

Lemma chars_cons (c : string) (l : list string) :
  chars (c :: l) = (String.length c + chars l)%nat.
Proof. reflexivity. Qed.

Lemma chars_app (l1 l2 : list string) : chars (l1 ++ l2) = (chars l1 + chars l2)%nat.
Proof. unfold chars. rewrite map_app, list_sum_app. reflexivity. Qed.

(** The chunks are not empty and hold the characters of the text. *)
Lemma chunks_from_chars (s : string) : forall cur blank,
  Forall (fun c => c <> EmptyString) (chunks_from cur blank s)
  /\ chars (chunks_from cur blank s) = (String.length cur + String.length s)%nat.
Proof.
  assert (Hrev : forall a cur, String.rev (String a cur) <> EmptyString).
  { intros a cur E. apply (f_equal String.length) in E. rewrite length_rev in E. discriminate. }
  induction s as [|a s IH]; intros cur blank; cbn [chunks_from].
  - destruct cur as [|c cur]; [split; [constructor|reflexivity]|].
    split; [constructor; [apply Hrev|constructor]|].
    rewrite chars_cons, length_rev. change (chars []) with 0%nat. simpl. lia.
  - destruct (Bool.eqb (is_wrap_space a) blank).
    + destruct (IH (String a cur) blank) as [H1 H2]. split; [exact H1|]. rewrite H2. simpl. lia.
    + destruct (IH (String a EmptyString) (is_wrap_space a)) as [H1 H2].
      destruct cur as [|c cur].
      * split; [exact H1|]. rewrite H2. simpl. lia.
      * split; [constructor; [apply Hrev|exact H1]|].
        rewrite chars_cons, length_rev, H2. simpl. lia.
Qed.

(** The inner loop moves a first part of the chunks to the line, and stops
    at the end or at a chunk that does not fit. *)
Lemma fill_line_spec (width : Z) (chunks : list string) : forall cur_line cur_len,
  exists taken rest,
    chunks = taken ++ rest
    /\ fill_line width chunks cur_line cur_len
       = (rev taken ++ cur_line, cur_len + Z.of_nat (chars taken), rest)
    /\ match rest with
       | c :: _ => width < cur_len + Z.of_nat (chars taken) + len c
       | [] => True
       end.
Proof.
  induction chunks as [|c chunks IH]; intros cur_line cur_len.
  - exists [], []. repeat split. simpl. f_equal. f_equal. change (chars []) with 0%nat. lia.
  - cbn [fill_line]. destruct (Z.leb_spec (cur_len + len c) width) as [Hfit|Hnofit].
    + destruct (IH (c :: cur_line) (cur_len + len c)) as (taken & rest & -> & Hrun & Hstop).
      exists (c :: taken), rest. split; [reflexivity|]. split.
      * rewrite Hrun. simpl rev. rewrite <- app_assoc. simpl.
        f_equal. f_equal. rewrite chars_cons. unfold len. lia.
      * destruct rest; [exact I|]. rewrite chars_cons. unfold len in *. lia.
    + exists [], (c :: chunks). split; [reflexivity|]. split.
      * simpl. f_equal. f_equal. change (chars []) with 0%nat. lia.
      * change (chars []) with 0%nat. lia.
Qed.

Lemma wrap_chunks_returns (fuel : nat) : forall width chunks lines,
  1 <= width ->
  Forall (fun c => c <> EmptyString) chunks ->
  (chars chunks < fuel)%nat ->
  exists wrapped, wrap_chunks fuel width chunks lines = Ok wrapped.
Proof.
  induction fuel as [|fuel IH]; intros width chunks lines Hw Hne Hfuel; [lia|].
  destruct chunks as [|first rest]; [eexists; reflexivity|].
  cbn [wrap_chunks].
  inversion Hne as [|? ? Hfirst Hrest]; subst.
  assert (Hpos : forall c : string, c <> EmptyString -> (0 < String.length c)%nat).
  { intros [|a c] Hc; [congruence|simpl; lia]. }
  pose proof (Hpos _ Hfirst) as Hlen.
  rewrite chars_cons in Hfuel.
  set (chunks1 := if is_blank first && (if lines is [] then false else true)
                  then rest else first :: rest).
  assert (H1 : Forall (fun c => c <> EmptyString) chunks1
               /\ (chunks1 = first :: rest \/ (chars chunks1 < String.length first + chars rest)%nat)).
  { subst chunks1. destruct (is_blank first && _); (split; [assumption|]); [right; lia|left; reflexivity]. }
  destruct H1 as (Hne1 & Hcase1).
  destruct (fill_line_spec width chunks1 [] 0) as (taken & rest2 & Hsplit & -> & Hstop).
  rewrite app_nil_r.
  assert (Hchars : chars chunks1 = (chars taken + chars rest2)%nat)
    by (rewrite Hsplit; apply chars_app).
  assert (Hne2 : Forall (fun c => c <> EmptyString) rest2).
  { rewrite Hsplit in Hne1. apply Forall_app in Hne1. tauto. }
  assert (Htaken : taken <> [] -> (0 < chars taken)%nat).
  { rewrite Hsplit in Hne1. apply Forall_app in Hne1 as [Ht _].
    destruct taken as [|t taken]; [congruence|]. intros _.
    inversion Ht as [|? ? Ht1 _]; subst. rewrite chars_cons. pose proof (Hpos t Ht1). lia. }
  assert (Hbound : (chars chunks1 <= String.length first + chars rest)%nat).
  { destruct Hcase1 as [->|Hlt]; [rewrite chars_cons|]; lia. }
  match goal with
  | |- context [let '(a, b) := ?p in _] => set (step := p)
  end.
  assert (Hstep : Forall (fun c => c <> EmptyString) (snd step)
                  /\ (chars (snd step) < String.length first + chars rest)%nat).
  { subst step. destruct rest2 as [|c rest2'].
    - cbn [snd]. split; [constructor|]. change (chars []) with 0%nat in *. lia.
    - inversion Hne2 as [|? ? Hc Hrest2]; subst. pose proof (Hpos _ Hc) as Hclen.
      rewrite chars_cons in Hchars.
      destruct (Z.ltb_spec width (len c)) as [Hlong|Hshort].
      + assert ((width <? 1) = false) as -> by lia. cbn [snd].
        set (space_left := Z.to_nat (width - (0 + Z.of_nat (chars taken)))).
        assert (Hsl : (space_left < String.length c)%nat) by (unfold len in Hlong; lia).
        assert (Hrem : String.length (String.substring space_left (String.length c - space_left) c)
                       = (String.length c - space_left)%nat) by (apply length_substring; lia).
        split.
        * constructor; [|assumption]. intros E. rewrite E in Hrem. simpl in Hrem. lia.
        * rewrite chars_cons, Hrem.
          destruct taken as [|t taken'].
          -- change (chars []) with 0%nat in *. subst space_left. lia.
          -- specialize (Htaken ltac:(discriminate)). lia.
      + cbn [snd]. split; [assumption|]. rewrite chars_cons.
        destruct taken as [|t taken'].
        * exfalso. change (chars []) with 0%nat in *. unfold len in *. lia.
        * specialize (Htaken ltac:(discriminate)). lia. }
  destruct step as [cur_line chunks3]. cbn [snd] in Hstep. destruct Hstep as [Hne3 Hlt3].
  apply IH; [assumption|assumption|lia].
Qed.

(** [textwrap.wrap] gives lines for every width above 0. *)
Lemma textwrap_wrap_returns (text : string) (width : Z) :
  0 < width -> exists wrapped, textwrap_wrap text width = Ok wrapped.
Proof.
  intros Hw. unfold textwrap_wrap. assert ((width <=? 0) = false) as -> by lia.
  unfold split_chunks. destruct (chunks_from_chars (munge_whitespace text) EmptyString false)
    as [Hne Hchars].
  apply wrap_chunks_returns; [lia|assumption|].
  rewrite Hchars. unfold munge_whitespace. rewrite length_str_map.
  pose proof (length_expandtabs text 0). simpl. lia.
Qed.


(** *** The widths a rendering uses are those [_compute_cols_width] stores *)

Lemma keeps_width_ret {A} (a : A) : keeps_width (ret a).
Proof. intros self. reflexivity. Qed.

Lemma keeps_width_lift {A} (r : result A) : keeps_width (lift r).
Proof. intros self. reflexivity. Qed.

Lemma keeps_width_raise {A} (e : exc) : keeps_width (@raise A e).
Proof. intros self. reflexivity. Qed.

Lemma keeps_width_get : keeps_width get.
Proof. intros self. reflexivity. Qed.

Lemma keeps_width_bind {A B} (m : M A) (k : A -> M B) :
  keeps_width m -> (forall a, keeps_width (k a)) -> keeps_width (bind m k).
Proof.
  intros Hm Hk self. unfold bind. specialize (Hm self).
  destruct (m self) as [[a|e] self']; simpl in *; [rewrite Hk|]; exact Hm.
Qed.

Lemma keeps_width_read {A} (k : Texttable -> M A) :
  (forall self, keeps_width (k self)) -> keeps_width (bind get k).
Proof. intros Hk. apply keeps_width_bind; [apply keeps_width_get|exact Hk]. Qed.

Create HintDb keeps_width.
#[local] Hint Resolve keeps_width_ret keeps_width_lift keeps_width_raise keeps_width_get
  : keeps_width.

Ltac keeps_width :=
  repeat first
    [ progress auto with keeps_width
    | apply keeps_width_bind; [|intros ?]
    | match goal with
      | |- keeps_width (if ?b then _ else _) => destruct b
      | |- keeps_width (match ?x with _ => _ end) => destruct x
      | |- keeps_width (modify _) => intros ?; reflexivity
      end ].

Lemma keeps_width_hline : keeps_width _hline.
Proof. unfold _hline. keeps_width. Qed.

Lemma keeps_width_hline_header : keeps_width _hline_header.
Proof. intros self. reflexivity. Qed.

Lemma keeps_width_check_align : keeps_width _check_align.
Proof. unfold _check_align. keeps_width. Qed.

#[local] Hint Resolve keeps_width_hline keeps_width_hline_header keeps_width_check_align
  : keeps_width.

Lemma keeps_width_draw_rows (rows : list (list string)) : forall out length,
  keeps_width (draw_rows rows out length).
Proof.
  induction rows as [|row rows IH]; intros out length; cbn [draw_rows]; keeps_width.
Qed.

#[local] Hint Resolve keeps_width_draw_rows : keeps_width.


(** *** The shrinking branch of [_compute_cols_width] *)

Lemma rfold_raise {A B} (f : B -> A -> result B) (l : list A) (e : exc) :
  fold_left (fun r x => rbind r (fun b => f b x)) l (Raise e) = Raise e.
Proof. induction l as [|x l IH]; simpl; auto. Qed.

Lemma rfold_cons {A B} (f : B -> A -> result B) (x : A) (l : list A) (b : B) :
  rfold f (x :: l) b = rbind (f b x) (rfold f l).
Proof.
  unfold rfold. simpl. destruct (f b x) as [b'|e]; simpl; [reflexivity|apply rfold_raise].
Qed.











Lemma map_current_columns cols : columns (map natural cols) (map current cols) = cols.
Proof.
  unfold columns. induction cols as [|[n c] cols IH]; simpl; [reflexivity|]. by rewrite IH.
Qed.






Lemma fold_left_add l : forall x, fold_left Z.add l x = x + sum_of l.
Proof.
  induction l as [|y l IH]; intros x; unfold sum_of in *; simpl; [lia|]. rewrite IH. lia.
Qed.







(** C10.  The oversized counter stays positive while the pool is positive
    and the loop ends ([distribute_redistributes] above), but not always
    with a pool of zero: for natural widths 9, 50 and 50 and
    [max_width = 40] the pool of 1 is handed out twice, the loop ends with
    [free = -1], and every line of the rendered table is 41 wide. *)
Theorem C10_pool_overdrawn :
  natural_widths table_9_50_50 = [9; 50; 50]
  /\ shrink_widths 40 [9; 50; 50] = Ok ([9; 11; 11], -1, 2)
  /\ _width (snd (_compute_cols_width table_9_50_50)) = Some [9; 11; 11]
  /\ exists out,
       fst (draw table_9_50_50) = Ok (Some out)
       /\ map len (split NL out) = [41; 41; 41; 41; 41; 41; 41].
Proof.
  split; [reflexivity|]. split; [reflexivity|]. split; [reflexivity|].
  eexists. split; [vm_compute; reflexivity|]. vm_compute. reflexivity.
Qed.

(** Once widths are stored, by the caller or by an earlier rendering,
    [_compute_cols_width] leaves the table alone. *)
Lemma compute_cols_width_kept (self : Texttable) (w : list Z) :
  _width self = Some w -> _compute_cols_width self = (Ok tt, self).
Proof. intros H. unfold _compute_cols_width, bind, get. cbv beta iota. rewrite H. reflexivity. Qed.

(** C2.  The widths a first rendering stores are found again by the next
    one, which takes them for explicit widths: a row of one character is
    rendered, a row of six characters added, and the second rendering still
    uses the width 1 and breaks the new cell into six lines, where a table
    given both rows at once is rendered 6 wide. *)
Theorem C2_second_render_keeps_first_widths :
  let again := bind (add_row [PStr "abcdef"]) (fun _ => draw) table_rendered_once in
  _width table_rendered_once = Some [1]
  /\ natural_widths (snd again) = [6]
  /\ _width (snd again) = Some [1]
  /\ fst again
     = Ok (Some (join nl ["+---+"; "| a |"; "+---+"; "| a |"; "| b |"; "| c |";
                          "| d |"; "| e |"; "| f |"; "+---+"]%string))
  /\ fst (bind (add_row [PStr "a"])
            (fun _ => bind (add_row [PStr "abcdef"]) (fun _ => draw)) (init 80))
     = Ok (Some (join nl ["+--------+"; "| a      |"; "+--------+"; "| abcdef |";
                          "+--------+"]%string)).
Proof. vm_compute. repeat split; reflexivity. Qed.

(** C9.  A table with neither header nor rows renders to nothing ([None]),
    without an error and without a change. *)
Theorem C9_empty_table_renders_nothing (self : Texttable) :
  _header self = [] -> _rows self = [] -> draw self = (Ok None, self).
Proof.
  intros Hh Hr. unfold draw, bind, get. cbv beta iota. rewrite Hh, Hr. reflexivity.
Qed.

Lemma C9_witness : draw (init 80) = (Ok None, init 80).
Proof. apply C9_empty_table_renders_nothing; reflexivity. Defined.

Lemma check_row_size_differs (self : Texttable) (N n : Z) :
  fixed_count self N -> n <> N ->
  _check_row_size n self = (Raise (sizing_error N), self).
Proof.
  intros [Hsize Hnz] Hne. unfold _check_row_size, bind, get. cbv beta iota. rewrite Hsize.
  destruct N as [|p|p]; [congruence| |];
    match goal with
    | |- context [?a =? n] => destruct (Z.eqb_spec a n)
    end; try congruence; reflexivity.
Qed.

Lemma check_row_size_same (self : Texttable) (N : Z) :
  fixed_count self N -> _check_row_size N self = (Ok tt, self).
Proof.
  intros [Hsize Hnz]. unfold _check_row_size, bind, get. cbv beta iota. rewrite Hsize.
  destruct N as [|p|p]; [congruence| |]; rewrite Z.eqb_refl; reflexivity.
Qed.

Lemma rmap_raise {A B} (f : A -> result B) (l : list A) (e : exc) :
  rmap f l = Raise e -> exists x, In x l /\ f x = Raise e.
Proof.
  induction l as [|x l IH]; simpl; [discriminate|].
  destruct (f x) as [y|e'] eqn:Hx; simpl.
  - destruct (rmap f l) as [ys|e'']; simpl; [discriminate|].
    intros [= ->]. destruct IH as (x' & Hin & Hx'); [reflexivity|]. eauto.
  - intros [= ->]. eauto.
Qed.

Lemma py_int_not_sizing (x : pyval) (e : exc) :
  py_int x = Raise e -> ~ is_sizing_error e.
Proof.
  destruct x as [s| |z|[| |q]|]; simpl; try (intros [= <-]; exact id); try discriminate.
  destruct (read_sign (strip_number s)) as [neg body].
  destruct (read_digits body 0 0 false) as [[v n] [|a r]]; [destruct (n =? 0)|];
    try discriminate; intros [= <-]; exact id.
Qed.

Lemma as_text_not_sizing (x : pyval) (e : exc) :
  as_text x = Raise e -> ~ is_sizing_error e.
Proof. destruct x; simpl; try discriminate; intros [= <-]; exact id. Qed.

Lemma str_not_sizing (self : Texttable) (i : nat) (x : pyval) (e : exc) :
  _str self i x = Raise e -> ~ is_sizing_error e.
Proof.
  unfold _str. destruct (py_float x) as [[| |f]|]; try apply as_text_not_sizing.
  destruct (_dtype self) as [dtypes|]; [|intros [= <-]; exact id].
  destruct (dtypes !! i) as [dtype|]; [|intros [= <-]; exact id].
  repeat match goal with
         | |- context [if ?b then _ else _] => destruct b
         end; try discriminate; apply as_text_not_sizing.
Qed.

Section Sizing.

Variable float_repr : Q -> string.

(** The size check for a column count other than 0.  Once the column
    count is fixed at [N], the size check and with it every call that
    passes an array of another length raises the sizing error that names
    [N], and leaves the table as it was; an array of length [N] passes the
    check, and no call given one raises a sizing error. *)
Theorem sizing_error_iff_length_differs (self : Texttable) (N : Z) :
  fixed_count self N ->
  (forall n, n <> N -> _check_row_size n self = (Raise (sizing_error N), self))
  /\ _check_row_size N self = (Ok tt, self)
  /\ (forall (a : list string) (v : list pyval),
        llen a <> N -> llen v <> N ->
        set_cols_align a self = (Raise (sizing_error N), self)
        /\ set_cols_valign a self = (Raise (sizing_error N), self)
        /\ set_cols_dtype a self = (Raise (sizing_error N), self)
        /\ set_cols_width v self = (Raise (sizing_error N), self)
        /\ header float_repr v self = (Raise (sizing_error N), self)
        /\ add_row v self = (Raise (sizing_error N), self))
  /\ (forall (a : list string) (v : list pyval),
        llen a = N -> llen v = N ->
        fst (set_cols_align a self) = Ok tt
        /\ fst (set_cols_valign a self) = Ok tt
        /\ fst (set_cols_dtype a self) = Ok tt
        /\ ~ fails_sizing (set_cols_width v self)
        /\ fst (header float_repr v self) = Ok tt
        /\ ~ fails_sizing (add_row v self)).
Proof.
  intros Hfixed.
  split; [intros n Hn; apply check_row_size_differs; assumption|].
  split; [apply check_row_size_same; assumption|].
  split.
  - intros a v Ha Hv.
    unfold set_cols_align, set_cols_valign, set_cols_dtype, set_cols_width, header, add_row, bind.
    rewrite !(check_row_size_differs self N _ Hfixed Ha), !(check_row_size_differs self N _ Hfixed Hv).
    repeat split.
  - intros a v Ha Hv.
    unfold set_cols_align, set_cols_valign, set_cols_dtype, set_cols_width, header, add_row, bind.
    rewrite Ha, Hv, !(check_row_size_same self N Hfixed).
    split; [reflexivity|]. split; [reflexivity|]. split; [reflexivity|].
    split; [|split; [reflexivity|]].
    + unfold fails_sizing, lift, raise, modify.
      destruct (rmap py_int v) as [ints|e] eqn:Hints; simpl.
      * destruct ints as [|w ints]; simpl; [exact id|].
        destruct (fold_left Z.min ints w <=? 0); simpl; exact id.
      * destruct (rmap_raise _ _ _ Hints) as (x & _ & Hx). eapply py_int_not_sizing; eauto.
    + unfold fails_sizing, get, lift, raise, modify, ret. cbv beta iota.
      destruct Hfixed as [Hsize Hnz].
      destruct (_dtype self) as [d|] eqn:Hd; [|rewrite Hsize]; cbv beta iota;
        match goal with
        | |- context [rmap ?f ?l] => destruct (rmap f l) as [cells|e] eqn:Hcells
        end; simpl; try exact id;
        destruct (rmap_raise _ _ _ Hcells) as ([j x] & _ & Hx); eapply str_not_sizing; eauto.
Qed.

End Sizing.

Lemma sizing_error_iff_length_differs_example :
  let self := snd (add_row [PStr "id"; PStr "name"] (init 80)) in
  add_row [PStr "x"] self = (Raise (sizing_error 2), self)
  /\ fst (set_cols_align ["l"; "r"]%string self) = Ok tt.
Proof.
  intros self.
  destruct (sizing_error_iff_length_differs (fun _ => ""%string) self 2) as (_ & _ & Hne & Heq).
  { split; [reflexivity|discriminate]. }
  split.
  - apply (Hne ["l"]%string [PStr "x"]); discriminate.
  - apply (Heq ["l"; "r"]%string [PNone; PNone]); reflexivity.
Defined.

(** C7.  An empty row sets the column count to 0, which
    [not self._row_size] takes for no count at all: the row of one cell
    that follows is accepted where a sizing error is due.  The rows are
    then of different lengths and [draw] ends in [TypeError]; a number in
    place of the text ends in [IndexError], the datatypes being those of
    no column. *)
Theorem C7_empty_row_leaves_count_open :
  let self := snd (add_row [] (init 80)) in
  fst (add_row [] (init 80)) = Ok tt
  /\ _row_size self = Some 0
  /\ llen [PStr "x"] <> 0
  /\ fst (add_row [PStr "x"] self) = Ok tt
  /\ _row_size (snd (add_row [PStr "x"] self)) = Some 1
  /\ _rows (snd (add_row [PStr "x"] self)) = [[]; ["x"%string]]
  /\ fst (draw (snd (add_row [PStr "x"] self))) = Raise TypeError
  /\ fst (add_row [PInt 5] self) = Raise IndexError.
Proof. vm_compute. repeat split; discriminate. Qed.

(** What the size check does to the table: nothing, or it sets a count
    that was not fixed. *)
Lemma check_row_size_cases (n : Z) (self : Texttable) :
  (exists m, fixed_count self m /\ m <> n
             /\ _check_row_size n self = (Raise (sizing_error m), self))
  \/ (fixed_count self n /\ _check_row_size n self = (Ok tt, self))
  \/ ((_row_size self = None \/ _row_size self = Some 0)
      /\ _check_row_size n self = (Ok tt, assign_row_size (Some n) self)).
Proof.
  destruct (_row_size self) as [m|] eqn:Hsize.
  - destruct (Z.eq_dec m 0) as [->|Hnz].
    + right; right. split; [auto|]. unfold _check_row_size, bind, get. cbv beta iota.
      rewrite Hsize. reflexivity.
    + assert (Hfixed : fixed_count self m) by (split; assumption).
      destruct (Z.eq_dec n m) as [->|Hne].
      * right; left. split; [assumption|]. apply check_row_size_same; assumption.
      * left. exists m. split; [assumption|]. split; [congruence|].
        apply check_row_size_differs; assumption.
  - right; right. split; [auto|]. unfold _check_row_size, bind, get. cbv beta iota.
    rewrite Hsize. reflexivity.
Qed.


Section Failing_setters.

Variable float_repr : Q -> string.


End Failing_setters.



Lemma fold_left_min_le (l : list Z) : forall x,
  fold_left Z.min l x <= x /\ (forall w, In w l -> fold_left Z.min l x <= w).
Proof.
  induction l as [|y l IH]; intros x; simpl.
  - split; [lia|tauto].
  - destruct (IH (Z.min x y)) as [H1 H2]. split; [lia|].
    intros w [<-|Hin]; [lia|auto].
Qed.

Lemma fold_left_min_in (l : list Z) : forall x,
  fold_left Z.min l x = x \/ In (fold_left Z.min l x) l.
Proof.
  induction l as [|y l IH]; intros x; simpl; [auto|].
  destruct (IH (Z.min x y)) as [H|H]; [|auto].
  rewrite H. destruct (Z.min_spec x y) as [[_ ->]|[_ ->]]; auto.
Qed.

Lemma rmap_py_int_ints (ints : list Z) : rmap py_int (map PInt ints) = Ok ints.
Proof. induction ints as [|z l IH]; simpl; [reflexivity|]. rewrite IH. reflexivity. Qed.

Lemma rmap_length {A B} (f : A -> result B) (l : list A) (ys : list B) :
  rmap f l = Ok ys -> length ys = length l.
Proof.
  revert ys. induction l as [|x l IH]; intros ys; simpl; [intros [= <-]; reflexivity|].
  destruct (f x) as [y|e]; simpl; [|discriminate].
  destruct (rmap f l) as [ys'|e]; simpl; [|discriminate].
  intros [= <-]. simpl. rewrite (IH ys' eq_refl). reflexivity.
Qed.

(** An array of no width at all has no smallest width: [reduce(min, [])]
    raises [TypeError] behind the size check. *)
Lemma set_cols_width_of_nothing (self self1 : Texttable) :
  _check_row_size (llen (@nil pyval)) self = (Ok tt, self1) ->
  set_cols_width [] self = (Raise TypeError, self1).
Proof. intros Hcheck. unfold set_cols_width, bind. rewrite Hcheck. reflexivity. Qed.

(** C8, as the code has it.  Behind the size check every width of an
    array that is not empty goes through [int()].  The call raises what a
    conversion raises ([ValueError] for a text that is no integer or for
    NaN), raises [ValueError] when a converted width is not strictly
    positive, and otherwise stores the converted widths, which are the
    given ones when these are integers. *)
Theorem C8_widths_converted_then_checked (self self1 : Texttable) (array : list pyval) :
  array <> [] ->
  _check_row_size (llen array) self = (Ok tt, self1) ->
  (forall e, rmap py_int array = Raise e -> set_cols_width array self = (Raise e, self1))
  /\ (forall ints, rmap py_int array = Ok ints ->
        ((exists w, In w ints /\ w <= 0) ->
         set_cols_width array self = (Raise ValueError, self1))
        /\ ((forall w, In w ints -> 0 < w) ->
            set_cols_width array self = (Ok tt, assign_width (Some ints) self1)))
  /\ (forall ints, array = map PInt ints -> (forall w, In w ints -> 0 < w) ->
        set_cols_width array self = (Ok tt, assign_width (Some ints) self1)).
Proof.
  intros Hsome Hcheck.
  assert (Hok : forall ints, rmap py_int array = Ok ints ->
            (forall w, In w ints -> 0 < w) ->
            set_cols_width array self = (Ok tt, assign_width (Some ints) self1)).
  { intros ints Hints Hpos. unfold set_cols_width, bind. rewrite Hcheck.
    unfold lift. rewrite Hints.
    destruct ints as [|w ints].
    { apply rmap_length in Hints. destruct array; [congruence|discriminate]. }
    simpl. destruct (fold_left_min_in ints w) as [Hmin|Hmin].
    - rewrite Hmin. pose proof (Hpos w (or_introl eq_refl)).
      assert ((w <=? 0) = false) as -> by lia. reflexivity.
    - pose proof (Hpos _ (or_intror Hmin)).
      assert ((fold_left Z.min ints w <=? 0) = false) as -> by lia. reflexivity. }
  split; [|split].
  - intros e Hints. unfold set_cols_width, bind. rewrite Hcheck. unfold lift. rewrite Hints.
    reflexivity.
  - intros ints Hints. split; [|apply Hok; assumption].
    intros (w & Hin & Hw). unfold set_cols_width, bind. rewrite Hcheck. unfold lift.
    rewrite Hints. destruct ints as [|x ints]; [contradiction|]. simpl.
    destruct (fold_left_min_le ints x) as [H1 H2].
    assert ((fold_left Z.min ints x <=? 0) = true) as ->; [|reflexivity].
    destruct Hin as [<-|Hin]; [lia|]. specialize (H2 _ Hin). lia.
  - intros ints -> Hpos. apply Hok; [apply rmap_py_int_ints|assumption].
Qed.

Lemma C8_witness :
  set_cols_width [PInt 10; PInt 20; PInt 5] (init 80)
  = (Ok tt, assign_width (Some [10; 20; 5]) (assign_row_size (Some 3) (init 80))).
Proof.
  apply (C8_widths_converted_then_checked (init 80) (assign_row_size (Some 3) (init 80))
           [PInt 10; PInt 20; PInt 5]).
  - discriminate.
  - reflexivity.
  - reflexivity.
  - intros w [<-|[<-|[<-|[]]]]; reflexivity.
Defined.

(** A width of 2.5, no integer, is not refused: it is stored as 2. *)
Lemma C8_counterexample_fraction_accepted :
  exists self',
    set_cols_width [PFloat (Ffin (5 # 2))] (init 80) = (Ok tt, self')
    /\ _width self' = Some [2].
Proof. eexists. split; reflexivity. Qed.

Lemma round_half_even_integer (f : Q) (z : Z) :
  (f == inject_Z z)%Q -> round_half_even f = z.
Proof.
  destruct f as [n d]. unfold Qeq, round_half_even. simpl. intros H.
  assert (Hn : n = z * Z.pos d) by lia. subst n.
  rewrite Z.div_mul, Z.mod_mul by lia.
  assert ((2 * 0 <? Z.pos d) = true) as -> by lia. reflexivity.
Qed.

Lemma is_integral_iff (f : Q) :
  is_integral f = true <-> exists z, (f == inject_Z z)%Q.
Proof.
  unfold is_integral. rewrite Qeq_bool_iff. split.
  - intros H. exists (round_half_even f). revert H.
    generalize (round_half_even f) as r. intros r. destruct f as [n d].
    unfold Qeq. simpl. lia.
  - intros [z Hz]. rewrite (round_half_even_integer f z Hz). revert Hz.
    destruct f as [n d]. unfold Qeq. simpl. lia.
Qed.

Lemma exceeds_1e8_iff (f : Q) :
  exceeds_1e8 f = false <-> (Qabs f <= inject_Z 100000000)%Q.
Proof.
  unfold exceeds_1e8, Qltb. rewrite negb_false_iff. apply Qle_bool_iff.
Qed.

(** C3.  In a column of datatype ["a"] a value that reads as a finite
    number [f] becomes: the decimal text of the integer [f] is, when its
    magnitude is at most 1e8; [%.*e] with the precision, when [f] is an
    integer of larger magnitude; [%.*f] with the precision, when [f] is no
    integer and at most 1e8 in magnitude; [%.*e] again when it is larger.
    At precision 3: 5 gives ["5"], 5.25 gives ["5.250"], 1000000000 gives
    ["1.000e+09"]. *)
Theorem C3_auto_normalization :
  (forall (self : Texttable) (i : nat) (x : pyval) (f : Q) (dtypes : list string),
      py_float x = Ok (Ffin f) ->
      _dtype self = Some dtypes ->
      dtypes !! i = Some "a"%string ->
      let small := (Qabs f <= inject_Z 100000000)%Q in
      let integral := exists z, (f == inject_Z z)%Q in
      (forall z, (f == inject_Z z)%Q -> small -> _str self i x = Ok (str_int z))
      /\ (integral -> ~ small -> _str self i x = Ok (fmt_e (_precision self) f))
      /\ (~ integral -> small -> _str self i x = Ok (fmt_f (_precision self) f))
      /\ (~ integral -> ~ small -> _str self i x = Ok (fmt_e (_precision self) f)))
  /\ _precision table_auto = 3
  /\ _str table_auto 0 (PInt 5) = Ok "5"%string
  /\ _str table_auto 0 (PFloat (Ffin (525 # 100))) = Ok "5.250"%string
  /\ _str table_auto 0 (PInt 1000000000) = Ok "1.000e+09"%string.
Proof.
  split; [|repeat split; vm_compute; reflexivity].
  intros self i x f dtypes Hx Hd Hi small integral.
  assert (Hstr : _str self i x
                 = if is_integral f then
                     if exceeds_1e8 f then Ok (fmt_e (_precision self) f)
                     else Ok (str_int (round_half_even f))
                   else
                     if exceeds_1e8 f then Ok (fmt_e (_precision self) f)
                     else Ok (fmt_f (_precision self) f)).
  { unfold _str. rewrite Hx, Hd, Hi. reflexivity. }
  rewrite Hstr. subst small integral.
  pose proof (is_integral_iff f) as Hint. pose proof (exceeds_1e8_iff f) as Hex.
  repeat match goal with |- _ /\ _ => split end.
  - intros z Hz Hsmall. rewrite (proj2 Hint (ex_intro _ z Hz)), (proj2 Hex Hsmall).
    rewrite (round_half_even_integer f z Hz). reflexivity.
  - intros Hi' Hbig. rewrite (proj2 Hint Hi').
    destruct (exceeds_1e8 f); [reflexivity|]. exfalso. apply Hbig, Hex. reflexivity.
  - intros Hni Hsmall. rewrite (proj2 Hex Hsmall).
    destruct (is_integral f); [|reflexivity]. exfalso. apply Hni, Hint. reflexivity.
  - intros Hni Hbig.
    destruct (is_integral f); [exfalso; apply Hni, Hint; reflexivity|].
    destruct (exceeds_1e8 f); [reflexivity|]. exfalso. apply Hbig, Hex. reflexivity.
Qed.

Lemma C3_witness : _str table_auto 1 (PStr " 42.0 ") = Ok (str_int 42).
Proof.
  apply (proj1 C3_auto_normalization table_auto 1%nat (PStr " 42.0 ") (42 # 1)
           ["a"; "a"]%string).
  - vm_compute. reflexivity.
  - reflexivity.
  - reflexivity.
  - reflexivity.
  - vm_compute. discriminate.
Defined.




(** The matches of a text in two parts: those of the first part, then those
    of the second, read from where the first part ends. *)
Lemma findall_from_app (s1 s2 : string) : forall cur,
  findall_from cur (s1 +:+ s2)
  = findall_from cur s1 ++ findall_from (scan_end cur s1) s2.
Proof.
  induction s1 as [|a s1 IH]; intros cur; simpl; [reflexivity|].
  destruct cur as [acc|].
  - destruct (Ascii.eqb a "m"); simpl; rewrite IH; reflexivity.
  - destruct (Ascii.eqb a ESC); rewrite IH; reflexivity.
Qed.

Lemma len_append (a b : string) : len (a +:+ b) = len a + len b.
Proof.
  unfold len. induction a as [|x a IH]; [reflexivity|simpl; lia].
Qed.

Lemma findall_resets (k : nat) :
  findall_from None (Nat.iter k (String.append RESET) EmptyString) = replicate k RESET
  /\ len (Nat.iter k (String.append RESET) EmptyString) = sum_of (map len (replicate k RESET)).
Proof.
  induction k as [|k [IH1 IH2]]; [split; reflexivity|].
  split.
  - simpl Nat.iter. rewrite findall_from_app. simpl replicate. rewrite <- IH1. reflexivity.
  - simpl Nat.iter. simpl replicate. simpl map. unfold sum_of in *. simpl fold_right.
    rewrite <- IH2, len_append. reflexivity.
Qed.

(** As many resets as codes are open close them all. *)
Lemma resets_close (stack : list string) :
  fold_left keep_step (replicate (length stack) RESET) stack = [].
Proof.
  induction stack as [|x stack IH] using rev_ind; [reflexivity|].
  rewrite length_app. simpl. rewrite Nat.add_comm. simpl.
  unfold keep_step at 2. rewrite String.eqb_refl.
  destruct (stack ++ [x]) eqn:E; [destruct stack; discriminate|].
  rewrite <- E, removelast_last. exact IH.
Qed.

Lemma fold_left_len (codes : list string) : forall w,
  fold_left (fun w a => w + len a) codes w = w + sum_of (map len codes).
Proof.
  induction codes as [|a codes IH]; intros w; unfold sum_of in *; simpl; [lia|].
  rewrite IH. lia.
Qed.

Lemma sum_of_app (l1 l2 : list Z) : sum_of (l1 ++ l2) = sum_of l1 + sum_of l2.
Proof. induction l1 as [|x l1 IH]; unfold sum_of in *; simpl; [reflexivity|]. rewrite IH. lia. Qed.

(** C6, as the code has it.  The codes are closed and opened again where a
    cell has a newline of its own, not where [textwrap.wrap] breaks a line.
    Each line of the cell is handed to [textwrap.wrap] with the codes the
    line before left open in front of it and one reset behind it for each
    code still open at its end, and is given the room of its escape
    sequences on top of the column width; if no escape sequence of the line
    is cut short, nothing is open at the end of what is handed over. *)
Theorem C6_codes_closed_at_newlines_of_the_cell
    (width : Z) (ansi_keep : list string) (c : string) (lines : list string) :
  let reopened := join "" ansi_keep +:+ c in
  let still_open := open_codes reopened in
  let closed := reopened +:+ str_mul RESET (llen still_open) in
  (exists extra_width,
      wrap_lines width ansi_keep (c :: lines)
      = rbind (textwrap_wrap closed (width + extra_width)) (fun wrapped =>
        rbind (wrap_lines width still_open lines) (fun array => Ok (wrapped ++ array)))
      /\ (terminated reopened -> extra_width = sum_of (map len (findall_ansi closed))))
  /\ (terminated reopened -> open_codes closed = []).
Proof.
  intros reopened still_open closed.
  assert (Hall : terminated reopened ->
                 findall_ansi closed = findall_ansi reopened ++ replicate (length still_open) RESET).
  { intros Hterm. unfold closed, findall_ansi. rewrite findall_from_app, Hterm.
    unfold str_mul, llen. rewrite Nat2Z.id. rewrite (proj1 (findall_resets _)). reflexivity. }
  split.
  - eexists. split; [reflexivity|].
    intros Hterm. rewrite (Hall Hterm), map_app, sum_of_app, fold_left_len.
    fold reopened. unfold str_mul, llen. fold (open_codes reopened). fold still_open.
    rewrite Nat2Z.id, (proj2 (findall_resets _)). lia.
  - intros Hterm. unfold open_codes at 1. rewrite (Hall Hterm), fold_left_app.
    apply resets_close.
Qed.

Lemma C6_witness :
  open_codes ((String ESC "[91maaa") +:+ str_mul RESET (llen (open_codes (String ESC "[91maaa")))) = []
  /\ wrap_cell (String ESC "[91maaa" +:+ nl +:+ "bbb" +:+ RESET) 3
     = Ok [String ESC "[91maaa" +:+ RESET; String ESC "[91mbbb" +:+ RESET].
Proof.
  split; [|reflexivity].
  apply (proj2 (C6_codes_closed_at_newlines_of_the_cell 3 [] (String ESC "[91maaa") [])).
  reflexivity.
Defined.

(** A red text of two words in a column of width 3 is broken between the
    words.  The first line opens the colour and leaves it open, the second
    one carries the reset and no code that opens the colour. *)
Lemma C6_counterexample_not_closed_where_wrapped :
  wrap_cell red_text 3 = Ok [String ESC "[91maaa"; "bbb" +:+ RESET]
  /\ open_codes (String ESC "[91maaa") = [String ESC "[91m"]
  /\ findall_ansi ("bbb" +:+ RESET) = [RESET].
Proof. vm_compute. repeat split; reflexivity. Qed.

(** * Further properties of the module *)

(** *** Text without escape sequences, and coloured text *)

Lemma scan_plain (s : string) :
  occurs ESC s = false ->
  scan_end None s = None /\ sub_from None s = s /\ findall_from None s = [].
Proof.
  induction s as [|a s IH]; [repeat split|].
  cbn [occurs scan_end sub_from findall_from]. destruct (Ascii.eqb a ESC); [discriminate|].
  intros H. destruct (IH H) as (H1 & H2 & H3). rewrite H1, H2, H3. repeat split.
Qed.

(** What is left of a text in two parts, the first of which ends outside an
    escape sequence *)
Lemma sub_from_app (s1 s2 : string) : forall cur,
  scan_end cur s1 = None ->
  sub_from cur (s1 +:+ s2) = sub_from cur s1 +:+ sub_from None s2.
Proof.
  induction s1 as [|a s1 IH]; intros cur Hend.
  - simpl in Hend. subst cur. reflexivity.
  - change (String a s1 +:+ s2) with (String a (s1 +:+ s2)).
    cbn [sub_from scan_end] in *. destruct cur as [acc|].
    + destruct (Ascii.eqb a "m"); apply IH; exact Hend.
    + destruct (Ascii.eqb a ESC); [apply IH; exact Hend|].
      rewrite (IH None Hend). reflexivity.
Qed.

Lemma scan_end_app (s1 s2 : string) : forall cur,
  scan_end cur (s1 +:+ s2) = scan_end (scan_end cur s1) s2.
Proof.
  induction s1 as [|a s1 IH]; intros cur; [reflexivity|].
  change (String a s1 +:+ s2) with (String a (s1 +:+ s2)).
  cbn [scan_end]. destruct cur; apply IH.
Qed.

Lemma append_empty_r (s : string) : s +:+ "" = s.
Proof. induction s as [|a s IH]; [reflexivity|]. change (String a s +:+ "") with (String a (s +:+ "")). by rewrite IH. Qed.

Lemma strip_wrapped (before text after : string) :
  scan_end None before = None -> sub_from None before = EmptyString ->
  sub_from None after = EmptyString ->
  occurs ESC text = false ->
  sub_from None (before +:+ text +:+ after) = text.
Proof.
  intros Hb1 Hb2 Ha Hplain. destruct (scan_plain text Hplain) as (Hend & Hsub & _).
  rewrite (sub_from_app before _ None Hb1), Hb2, (sub_from_app text _ None Hend), Hsub, Ha.
  apply append_empty_r.
Qed.

Lemma findall_wrapped (before text after : string) :
  scan_end None before = None ->
  occurs ESC text = false ->
  findall_from None (before +:+ text +:+ after)
  = findall_from None before ++ findall_from None after.
Proof.
  intros Hb Hplain. destruct (scan_plain text Hplain) as (Hend & _ & Hfind).
  rewrite !findall_from_app, Hb, Hend, Hfind. reflexivity.
Qed.

(** X1.  A text without escape character, coloured by [get_color_string]
    with any colour of [bcolors], measures what the text measures, loses
    exactly the colour codes when the escape sequences are taken out, and
    leaves no code open. *)
Theorem color_string_measures_as_text (color text : string) :
  In color bcolors.all ->
  occurs ESC text = false ->
  strip_ansi (get_color_string color text) = text
  /\ _len_cell (get_color_string color text) = _len_cell text
  /\ open_codes (get_color_string color text) = [].
Proof.
  intros Hcolor Hplain.
  assert (Hstrip : strip_ansi (get_color_string color text) = text).
  { unfold strip_ansi, get_color_string.
    repeat destruct Hcolor as [<-|Hcolor]; try contradiction;
      apply strip_wrapped; try reflexivity; exact Hplain. }
  split; [exact Hstrip|]. split.
  - unfold _len_cell. rewrite Hstrip.
    unfold strip_ansi. rewrite (proj1 (proj2 (scan_plain text Hplain))). reflexivity.
  - unfold open_codes, findall_ansi, get_color_string.
    repeat destruct Hcolor as [<-|Hcolor]; try contradiction;
      (rewrite findall_wrapped; [reflexivity|reflexivity|exact Hplain]).
Qed.

Lemma color_string_measures_as_text_witness :
  _len_cell (get_color_string bcolors.RED "Springfield") = _len_cell "Springfield".
Proof.
  apply (color_string_measures_as_text bcolors.RED "Springfield").
  - unfold bcolors.all. simpl. tauto.
  - reflexivity.
Defined.

(** *** The visual length of a cell *)

Lemma split_acc_plain (c : ascii) (s : string) : forall cur,
  occurs c s = false -> split_acc c s cur = [String.rev_app cur s].
Proof.
  induction s as [|a s IH]; intros cur H; [reflexivity|].
  cbn [occurs split_acc] in *. destruct (Ascii.eqb a c); [discriminate|].
  rewrite (IH _ H). reflexivity.
Qed.

Lemma split_plain (c : ascii) (s : string) : occurs c s = false -> split c s = [s].
Proof. intros H. unfold split. rewrite split_acc_plain by exact H. reflexivity. Qed.

Lemma split_acc_app (c : ascii) (a b : string) : forall cur,
  split_acc c (a +:+ String c b) cur = split_acc c a cur ++ split c b.
Proof.
  induction a as [|x a IH]; intros cur.
  - change ("" +:+ String c b) with (String c b). cbn [split_acc].
    rewrite Ascii.eqb_refl. reflexivity.
  - change (String x a +:+ String c b) with (String x (a +:+ String c b)).
    cbn [split_acc]. destruct (Ascii.eqb x c); rewrite IH; reflexivity.
Qed.

Lemma split_app (c : ascii) (a b : string) :
  split c (a +:+ String c b) = split c a ++ split c b.
Proof. apply split_acc_app. Qed.

Lemma split_acc_snoc (c : ascii) (s : string) : forall cur,
  exists parts last, split_acc c s cur = parts ++ [last].
Proof.
  induction s as [|a s IH]; intros cur.
  - exists [], (String.rev cur). reflexivity.
  - cbn [split_acc]. destruct (Ascii.eqb a c).
    + destruct (IH EmptyString) as (parts & last & ->).
      exists (String.rev cur :: parts), last. reflexivity.
    + apply IH.
Qed.

Lemma line_length_fold (line : string) :
  line_length line
  = fold_left (tab_step (llen (split TAB line)))
      (zip (split TAB line) (map Z.of_nat (seq 1 (length (split TAB line))))) 0.
Proof.
  reflexivity.
Qed.

(** Parts that are not the last one: each ends at a tab stop. *)
Lemma fold_tab_steps (n n' : Z) (parts : list string) : forall k acc,
  Z.of_nat (k + length parts) < n -> Z.of_nat (k + length parts) < n' ->
  fold_left (tab_step n) (zip parts (map Z.of_nat (seq (S k) (length parts)))) acc
  = fold_left (tab_step n') (zip parts (map Z.of_nat (seq (S k) (length parts)))) acc.
Proof.
  induction parts as [|p parts IH]; intros k acc Hn Hn'; [reflexivity|].
  simpl length in *. cbn [seq map zip_with fold_left].
  assert (Hstep : tab_step n acc (p, Z.of_nat (S k)) = tab_step n' acc (p, Z.of_nat (S k))).
  { unfold tab_step. destruct (Z.ltb_spec (Z.of_nat (S k)) n), (Z.ltb_spec (Z.of_nat (S k)) n');
      reflexivity || lia. }
  rewrite Hstep. apply IH; lia.
Qed.

Lemma zip_seq_snoc (parts : list string) (last : string) :
  zip (parts ++ [last]) (map Z.of_nat (seq 1 (length (parts ++ [last]))))
  = zip parts (map Z.of_nat (seq 1 (length parts))) ++ [(last, Z.of_nat (S (length parts)))].
Proof.
  rewrite length_app. simpl length. rewrite seq_app, map_app.
  rewrite zip_with_app by (rewrite length_map, length_seq; reflexivity).
  reflexivity.
Qed.

(** The length of a line that ends in a last part without tab *)
Lemma line_length_snoc (parts : list string) (last : string) :
  fold_left (tab_step (llen (parts ++ [last])))
    (zip (parts ++ [last]) (map Z.of_nat (seq 1 (length (parts ++ [last]))))) 0
  = match parts with
    | [] => len last
    | _ =>
        (fold_left (tab_step (llen parts))
           (zip parts (map Z.of_nat (seq 1 (length parts)))) 0 / 8 + 1) * 8 + len last
    end.
Proof.
  rewrite zip_seq_snoc, fold_left_app. cbn [fold_left].
  replace (llen (parts ++ [last])) with (Z.of_nat (S (length parts)))
    by (unfold llen; rewrite length_app; simpl; lia).
  unfold tab_step at 1. rewrite Z.ltb_irrefl.
  destruct parts as [|x l]; [reflexivity|]. f_equal.
  destruct (exists_last (l := x :: l)) as (qs & p & ->); [discriminate|].
  rewrite !zip_seq_snoc, !fold_left_app. cbn [fold_left].
  replace (llen (qs ++ [p])) with (Z.of_nat (S (length qs)))
    by (unfold llen; rewrite length_app; simpl; lia).
  rewrite length_app. simpl length.
  rewrite (fold_tab_steps (Z.of_nat (S (length qs + 1))) (Z.of_nat (S (length qs))) qs 0 0);
    [|lia|lia].
  unfold tab_step at 1 3. rewrite Z.ltb_irrefl.
  assert ((Z.of_nat (S (length qs)) <? Z.of_nat (S (length qs + 1))) = true) as ->
    by (apply Z.ltb_lt; lia).
  reflexivity.
Qed.

Lemma fold_left_max_start (l : list Z) : forall x,
  0 <= x -> fold_left Z.max l x = Z.max x (fold_left Z.max l 0).
Proof.
  induction l as [|y l IH]; intros x Hx; simpl; [lia|].
  rewrite (IH (Z.max x y)), (IH (Z.max 0 y)) by lia. lia.
Qed.

Lemma len_nonneg (s : string) : 0 <= len s.
Proof. unfold len. lia. Qed.

Lemma line_length_nonneg (line : string) : 0 <= line_length line.
Proof.
  rewrite line_length_fold. generalize (llen (split TAB line)) as n.
  generalize (zip (split TAB line) (map Z.of_nat (seq 1 (length (split TAB line))))) as l.
  intros l n. assert (H : forall acc, 0 <= acc -> 0 <= fold_left (tab_step n) l acc); [|apply H; lia].
  induction l as [|[p i] l IH]; intros acc Hacc; [exact Hacc|].
  cbn [fold_left]. apply IH. unfold tab_step. pose proof (len_nonneg p).
  destruct (i <? n); [|lia].
  pose proof (Z.div_pos (acc + len p) 8 ltac:(lia) ltac:(lia)). lia.
Qed.

Lemma len_cell_lines (cell : string) :
  _len_cell cell = fold_left Z.max (map line_length (split NL (strip_ansi cell))) 0.
Proof.
  unfold _len_cell. generalize (split NL (strip_ansi cell)) as l. intros l. generalize 0.
  induction l as [|x l IH]; intros z; [reflexivity|]. simpl. apply IH.
Qed.

Lemma occurs_app (c : ascii) (a b : string) :
  occurs c (a +:+ b) = occurs c a || occurs c b.
Proof.
  induction a as [|x a IH]; [reflexivity|].
  change (String x a +:+ b) with (String x (a +:+ b)). cbn [occurs]. rewrite IH.
  apply orb_assoc.
Qed.

Lemma len_cell_single_line (s : string) :
  occurs ESC s = false -> occurs NL s = false -> _len_cell s = line_length s.
Proof.
  intros Hesc Hnl. rewrite len_cell_lines. unfold strip_ansi.
  rewrite (proj1 (proj2 (scan_plain s Hesc))), (split_plain NL s Hnl). simpl.
  pose proof (line_length_nonneg s). lia.
Qed.

(** X2.  The visual length of a cell is never negative, and for a text
    without escape character, tab and newline it is the number of its
    characters. *)
Theorem len_cell_of_plain_text (cell : string) :
  0 <= _len_cell cell
  /\ (occurs ESC cell = false -> occurs TAB cell = false -> occurs NL cell = false ->
      _len_cell cell = len cell).
Proof.
  split.
  - rewrite len_cell_lines. generalize (map line_length (split NL (strip_ansi cell))) as l.
    intros l. assert (H : forall x, 0 <= x -> 0 <= fold_left Z.max l x); [|apply H; lia].
    induction l as [|y l IH]; intros x Hx; simpl; [exact Hx|]. apply IH. lia.
  - intros Hesc Htab Hnl. rewrite (len_cell_single_line cell Hesc Hnl), line_length_fold.
    rewrite (split_plain TAB cell Htab). reflexivity.
Qed.

Lemma len_cell_of_plain_text_witness : _len_cell "Tournament Name" = len "Tournament Name".
Proof. apply (proj2 (len_cell_of_plain_text "Tournament Name")); reflexivity. Defined.

(** X3.  A tab moves on to the next multiple of 8: a line followed by a
    tab and a text without tab measures the line rounded up to the next
    tab stop, plus the text. *)
Theorem len_cell_tab_stop (line text : string) :
  occurs ESC line = false -> occurs NL line = false ->
  occurs ESC text = false -> occurs NL text = false -> occurs TAB text = false ->
  _len_cell (line +:+ String TAB text) = (_len_cell line / 8 + 1) * 8 + len text.
Proof.
  intros Hesc Hnl Hesc' Hnl' Htab.
  assert (Hplain : forall c, c <> TAB -> occurs c line = false -> occurs c text = false ->
                     occurs c (line +:+ String TAB text) = false).
  { intros c Hc H1 H2. rewrite occurs_app, H1. cbn [occurs]. rewrite H2.
    destruct (Ascii.eqb_spec TAB c); [congruence|reflexivity]. }
  rewrite (len_cell_single_line _ (Hplain ESC ltac:(discriminate) Hesc Hesc')
             (Hplain NL ltac:(discriminate) Hnl Hnl')).
  rewrite (len_cell_single_line line Hesc Hnl).
  rewrite (line_length_fold (line +:+ String TAB text)), split_app, (split_plain TAB text Htab).
  rewrite line_length_snoc, <- line_length_fold.
  destruct (split_acc_snoc TAB line EmptyString) as (parts & last & E).
  unfold split at 1. rewrite E. destruct parts; reflexivity.
Qed.

Lemma len_cell_tab_stop_witness : _len_cell ("id" +:+ String TAB "name") = (_len_cell "id" / 8 + 1) * 8 + len "name".
Proof. apply len_cell_tab_stop; reflexivity. Defined.

(** X4.  A cell of several lines is as wide as its widest line: for a
    text whose escape sequences are all complete, followed by a newline
    and more text, the visual length is the larger of the two visual
    lengths. *)
Theorem len_cell_of_two_lines (above below : string) :
  terminated above ->
  _len_cell (above +:+ String NL below) = Z.max (_len_cell above) (_len_cell below).
Proof.
  intros Hterm. rewrite !len_cell_lines. unfold strip_ansi.
  rewrite (sub_from_app above _ None Hterm).
  change (sub_from None (String NL below)) with (String NL (sub_from None below)).
  rewrite split_app, map_app, fold_left_app.
  rewrite fold_left_max_start; [reflexivity|].
  generalize (map line_length (split NL (sub_from None above))) as l. intros l.
  assert (H : forall x, 0 <= x -> 0 <= fold_left Z.max l x); [|apply H; lia].
  induction l as [|y l IH]; intros x Hx; simpl; [exact Hx|]. apply IH. lia.
Qed.

Lemma len_cell_of_two_lines_witness :
  _len_cell ("Example" +:+ String NL "Invitational")
  = Z.max (_len_cell "Example") (_len_cell "Invitational").
Proof. apply len_cell_of_two_lines. reflexivity. Defined.

(** *** Bounds on the widths after shrinking *)












(** *** Horizontal lines *)

Lemma len_str_mul (s : string) (n : Z) : 0 <= n -> len (str_mul s n) = n * len s.
Proof.
  intros Hn. unfold len. rewrite <- (Z2Nat.id n Hn) at 1. rewrite length_str_mul. lia.
Qed.

Lemma len_join (sep : string) (parts : list string) :
  parts <> [] ->
  len (join sep parts) = sum_of (map len parts) + len sep * (llen parts - 1).
Proof.
  induction parts as [|p parts IH]; [congruence|]. intros _.
  destruct parts as [|q parts].
  - unfold sum_of, llen; simpl. lia.
  - change (join sep (p :: q :: parts)) with (p +:+ sep +:+ join sep (q :: parts)).
    rewrite !len_append, IH by discriminate.
    unfold sum_of, llen. cbn [map fold_right length]. lia.
Qed.

Lemma sum_len_str_mul (h : string) (widths : list Z) :
  len h = 1 -> Forall (fun w => 0 <= w) widths ->
  sum_of (map len (map (fun n => str_mul h n) widths)) = sum_of widths.
Proof.
  intros Hh Hw. induction Hw as [|w widths Hw0 _ IH]; [reflexivity|].
  unfold sum_of in *. cbn [map fold_right]. rewrite IH, len_str_mul, Hh by exact Hw0. lia.
Qed.

(** X6.  With single border characters and widths that are not negative,
    a horizontal line is as long as the widths and the decoration between
    them: the sum of the widths plus [3 * N + 1] when the border is on,
    [3 * (N - 1)] when it is off, and the newline. *)
Theorem hline_length (self : Texttable) (widths : list Z) (is_header : bool) :
  _width self = Some widths ->
  widths <> [] ->
  Forall (fun w => 0 <= w) widths ->
  single_chars self ->
  exists line,
    _build_hline self is_header = Ok line
    /\ len line = sum_of widths
                  + (if _has_border self then 3 * llen widths + 1 else 3 * (llen widths - 1))
                  + 1.
Proof.
  intros Hw Hne Hpos (Hh & _ & Hc & Hhd). unfold _build_hline, the_width. rewrite Hw.
  cbn [rbind].
  set (horiz := if is_header then _char_header self else _char_horiz self).
  assert (Hhoriz : len horiz = 1) by (subst horiz; destruct is_header; assumption).
  set (corner := if _has_vlines self then _char_corner self else horiz).
  assert (Hcorner : len corner = 1) by (subst corner; destruct (_has_vlines self); assumption).
  assert (Hparts : map (fun n => str_mul horiz n) widths <> []) by (destruct widths; simpl; congruence).
  pose proof (len_join (horiz +:+ corner +:+ horiz) _ Hparts) as Hjoin.
  rewrite (sum_len_str_mul horiz widths Hhoriz Hpos), !len_append, Hhoriz, Hcorner in Hjoin.
  replace (llen (map (fun n => str_mul horiz n) widths)) with (llen widths) in Hjoin
    by (unfold llen; rewrite length_map; reflexivity).
  destruct (_has_border self); eexists; (split; [reflexivity|]);
    rewrite !len_append, Hjoin, ?Hhoriz, ?Hc; change (len nl) with 1; lia.
Qed.

Lemma hline_length_witness :
  exists line,
    _build_hline (snd (_compute_cols_width table_20_20_20)) false = Ok line
    /\ len line = sum_of [6; 6; 6] + (3 * 3 + 1) + 1.
Proof.
  apply (hline_length (snd (_compute_cols_width table_20_20_20)) [6; 6; 6] false).
  - reflexivity.
  - discriminate.
  - repeat constructor; discriminate.
  - repeat split.
Defined.

(** *** Natural widths *)

Lemma widen_nonneg (maxi : list Z) (row : list string) :
  Forall (fun w => 0 <= w) maxi -> Forall (fun w => 0 <= w) (widen maxi row).
Proof.
  unfold widen. generalize (zip row (seq 0 (length row))) as cells. intros cells. revert maxi.
  induction cells as [|[cell i] cells IH]; intros maxi Hm; [exact Hm|].
  cbn [fold_left]. apply IH. pose proof (proj1 (len_cell_of_plain_text cell)) as Hcell.
  destruct (maxi !! i) as [m|] eqn:E.
  - apply Forall_insert; [exact Hm|]. lia.
  - apply Forall_app. split; [exact Hm|]. constructor; [exact Hcell|constructor].
Qed.

Lemma natural_widths_nonneg (self : Texttable) :
  Forall (fun w => 0 <= w) (natural_widths self).
Proof.
  unfold natural_widths.
  assert (H0 : Forall (fun w => 0 <= w)
                 (if _header self is [] then [] else map _len_cell (_header self))).
  { destruct (_header self) as [|h hs]; [constructor|].
    apply Forall_forall. intros w Hin. apply list_elem_of_In, in_map_iff in Hin as (c & <- & _).
    apply len_cell_of_plain_text. }
  revert H0. generalize (if _header self is [] then [] else map _len_cell (_header self)).
  induction (_rows self) as [|row rows IH]; intros maxi Hm; [exact Hm|].
  cbn [fold_left]. apply IH, widen_nonneg, Hm.
Qed.

(** X7.  On a table with content and without explicit widths, whose
    natural widths fit [max_width] (or whose [max_width] is off),
    [_compute_cols_width] stores the natural widths, none of them
    negative; with single border characters the border line of the table
    is then [sum + 3 * N + 1] characters long, within [max_width] when it
    is on. *)
Theorem natural_widths_kept_when_fitting (self : Texttable) :
  _width self = None ->
  natural_widths self <> [] ->
  _max_width self = 0
  \/ sum_of (natural_widths self) + 3 * llen (natural_widths self) + 1 <= _max_width self ->
  _compute_cols_width self = (Ok tt, assign_width (Some (natural_widths self)) self)
  /\ Forall (fun w => 0 <= w) (natural_widths self)
  /\ (single_chars self -> _has_border self = true ->
      exists line,
        _build_hline (assign_width (Some (natural_widths self)) self) false = Ok line
        /\ len line = sum_of (natural_widths self) + 3 * llen (natural_widths self) + 1 + 1
        /\ (_max_width self <> 0 -> len line - 1 <= _max_width self)).
Proof.
  intros Hnone Hne Hfit. split; [|split; [apply natural_widths_nonneg|]].
  - unfold _compute_cols_width, bind, get. cbv beta iota. rewrite Hnone.
    destruct (natural_widths self) as [|x l] eqn:Hn; [congruence|].
    unfold lift, reduce. rewrite fold_left_add. change (x + sum_of l) with (sum_of (x :: l)).
    replace (sum_of (x :: l) + llen (x :: l) * 3 + 1)
      with (sum_of (x :: l) + 3 * llen (x :: l) + 1) by lia.
    destruct Hfit as [-> | Hfit]; [reflexivity|].
    assert ((sum_of (x :: l) + 3 * llen (x :: l) + 1 >? _max_width self) = false) as -> by lia.
    rewrite andb_false_r. reflexivity.
  - intros Hchars Hborder.
    destruct (hline_length (assign_width (Some (natural_widths self)) self)
                (natural_widths self) false eq_refl Hne (natural_widths_nonneg self) Hchars)
      as (line & Hline & Hlen).
    change (_has_border (assign_width (Some (natural_widths self)) self))
      with (_has_border self) in Hlen.
    rewrite Hborder in Hlen. exists line. split; [exact Hline|]. split; [lia|].
    intros Hon. destruct Hfit as [Hoff|Hfit]; [congruence|]. lia.
Qed.

Lemma natural_widths_kept_when_fitting_witness :
  _compute_cols_width table_auto_row
  = (Ok tt, assign_width (Some (natural_widths table_auto_row)) table_auto_row).
Proof.
  apply (natural_widths_kept_when_fitting table_auto_row).
  - reflexivity.
  - vm_compute. discriminate.
  - right. vm_compute. discriminate.
Defined.

(** *** Rows *)

Lemma bind_check_ok {A} (n : Z) (k : unit -> M A) (self self' : Texttable) (a : A) :
  bind (_check_row_size n) k self = (Ok a, self') ->
  exists self1,
    (self1 = self \/ self1 = assign_row_size (Some n) self)
    /\ _row_size self1 = Some n
    /\ k tt self1 = (Ok a, self').
Proof.
  unfold bind.
  destruct (check_row_size_cases n self) as [(m & Hf & Hne & ->)|[[Hf ->]|[Hz ->]]].
  - discriminate.
  - intros Hk. exists self. destruct Hf as [Hf _]. auto.
  - intros Hk. exists (assign_row_size (Some n) self). auto.
Qed.

Lemma length_enumerate {A} (l : list A) : length (enumerate l) = length l.
Proof. unfold enumerate. rewrite length_zip_with, length_seq. lia. Qed.

(** X8.  A call of [add_row] that returns has appended one row, of as
    many cells as the array has elements, behind the rows there were; the
    column count is the length of the array; the datatypes are those there
    were, or automatic for every column if there were none; nothing else
    has changed. *)
Theorem add_row_appends_one_row (self self' : Texttable) (array : list pyval) :
  add_row array self = (Ok tt, self') ->
  exists cells,
    length cells = length array
    /\ self' = assign_rows (_rows self ++ [cells])
                 (assign_dtype (Some (default (list_mul "a"%string (llen array)) (_dtype self)))
                    (assign_row_size (Some (llen array)) self)).
Proof.
  intros Hrun. apply bind_check_ok in Hrun as (self1 & Hself1 & Hsize & Hrun).
  revert Hrun. unfold bind, get, lift, modify, ret, raise. cbv beta iota.
  assert (Hd : _dtype self1 = _dtype self) by (destruct Hself1 as [->| ->]; reflexivity).
  assert (Hr : _rows self1 = _rows self) by (destruct Hself1 as [->| ->]; reflexivity).
  assert (Hfix : forall x, assign_dtype x self1
                           = assign_dtype x (assign_row_size (Some (llen array)) self)).
  { intros x. destruct Hself1 as [->| ->]; [|reflexivity].
    unfold assign_dtype, assign_row_size. simpl. rewrite Hsize. reflexivity. }
  destruct (_dtype self1) as [d|] eqn:Hd1; [|rewrite Hsize]; cbv beta iota;
    match goal with
    | |- context [rmap ?f ?l] => destruct (rmap f l) as [cells|e] eqn:Hcells
    end; try discriminate; intros [= <-];
    exists cells; (split; [rewrite (rmap_length _ _ _ Hcells); apply length_enumerate|]);
    rewrite <- Hd; simpl default.
  - rewrite <- Hfix. unfold assign_rows, assign_dtype. simpl. rewrite Hr, Hd1.
    destruct self1; reflexivity.
  - rewrite <- Hfix. unfold assign_rows, assign_dtype. simpl. rewrite Hr. reflexivity.
Qed.

Lemma add_row_appends_one_row_witness :
  exists cells,
    length cells = 2%nat
    /\ snd (add_row [PStr "id"; PStr "name"] (init 80))
       = assign_rows ([] ++ [cells])
           (assign_dtype (Some (list_mul "a"%string 2)) (assign_row_size (Some 2) (init 80))).
Proof.
  apply (add_row_appends_one_row (init 80) _ [PStr "id"; PStr "name"]). reflexivity.
Defined.

Lemma rmap_ok {A B} (f : A -> result B) (l : list A) :
  (forall x, In x l -> exists y, f x = Ok y) -> exists ys, rmap f l = Ok ys.
Proof.
  induction l as [|x l IH]; intros H; [eexists; reflexivity|].
  destruct (H x (or_introl eq_refl)) as [y Hy].
  destruct IH as [ys Hys]; [intros x' Hx'; apply H; right; exact Hx'|].
  exists (y :: ys). simpl. rewrite Hy. simpl. rewrite Hys. reflexivity.
Qed.

Lemma in_zip_seq {A} (l : list A) : forall k i x,
  In (i, x) (zip (seq k (length l)) l) -> (i < k + length l)%nat /\ In x l.
Proof.
  induction l as [|y l IH]; intros k i x; simpl; [tauto|].
  intros [[= <- <-]|Hin]; [split; [lia|auto]|].
  destruct (IH _ _ _ Hin). split; [lia|auto].
Qed.

(** A text or [None] becomes a cell in every column that has a datatype. *)
Lemma str_of_text_returns (self : Texttable) (i : nat) (x : pyval) (dtypes : list string) :
  x = PNone \/ (exists s, x = PStr s) ->
  _dtype self = Some dtypes ->
  (i < length dtypes)%nat ->
  exists cell, _str self i x = Ok cell.
Proof.
  intros Htext Hd Hi. unfold _str. rewrite Hd.
  assert (Has : exists cell, as_text x = Ok cell).
  { destruct Htext as [->|[s ->]]; eexists; reflexivity. }
  destruct (py_float x) as [[| |f]|]; try exact Has.
  destruct (lookup_lt_is_Some_2 dtypes i Hi) as [dtype ->].
  repeat match goal with
         | |- context [if ?b then _ else _] => destruct b
         end; try exact Has; eexists; reflexivity.
Qed.

(** X9.  A row of texts and [None]s is never refused for what it holds:
    on a table whose column count is open or the length of the row, and
    whose datatypes are not set or are as many as the row is long,
    [add_row] returns. *)
Theorem add_row_of_texts_returns (self : Texttable) (array : list pyval) :
  Forall (fun x => x = PNone \/ exists s, x = PStr s) array ->
  _row_size self = None \/ _row_size self = Some 0 \/ _row_size self = Some (llen array) ->
  _dtype self = None \/ (exists dtypes, _dtype self = Some dtypes
                                        /\ (length array <= length dtypes)%nat) ->
  exists self', add_row array self = (Ok tt, self').
Proof.
  intros Htexts Hsize Hdtype. unfold add_row, bind at 1.
  destruct (check_row_size_cases (llen array) self)
    as [(m & [Hm Hnz] & Hne & _)|[[[Hf _] Hcheck]|[Hz Hcheck]]].
  { exfalso. destruct Hsize as [H|[H|H]]; congruence. }
  all: rewrite Hcheck; unfold bind, get, lift, modify, ret, raise; cbv beta iota.
  all: assert (Hcells : forall s1 dtypes, _dtype s1 = Some dtypes ->
                 (length array <= length dtypes)%nat ->
                 exists cells, rmap (fun '(i, x) => _str s1 i x) (enumerate array) = Ok cells)
    by (intros s1 dtypes Hd Hlen; apply rmap_ok; intros [i x] Hin;
        apply in_zip_seq in Hin as [Hi Hx];
        apply (str_of_text_returns s1 i x dtypes); [|exact Hd|lia];
        rewrite Forall_forall in Htexts; apply Htexts, list_elem_of_In, Hx).
  - destruct Hdtype as [Hd|(dtypes & Hd & Hlen)]; rewrite Hd; [rewrite Hf|]; cbv beta iota.
    + destruct (Hcells (assign_dtype (Some (list_mul "a"%string (llen array))) self)
                  (list_mul "a"%string (llen array)) eq_refl) as [cells ->].
      { unfold list_mul, llen. rewrite length_replicate. lia. }
      eexists; reflexivity.
    + destruct (Hcells self dtypes Hd Hlen) as [cells ->]. eexists; reflexivity.
  - change (_dtype (assign_row_size (Some (llen array)) self)) with (_dtype self).
    destruct Hdtype as [Hd|(dtypes & Hd & Hlen)]; rewrite Hd; cbv beta iota.
    + change (_row_size (assign_row_size (Some (llen array)) self)) with (Some (llen array)).
      cbv beta iota.
      destruct (Hcells (assign_dtype (Some (list_mul "a"%string (llen array)))
                          (assign_row_size (Some (llen array)) self))
                  (list_mul "a"%string (llen array)) eq_refl) as [cells ->].
      { unfold list_mul, llen. rewrite length_replicate. lia. }
      eexists; reflexivity.
    + destruct (Hcells (assign_row_size (Some (llen array)) self) dtypes Hd Hlen) as [cells ->].
      eexists; reflexivity.
Qed.

Lemma add_row_of_texts_returns_witness :
  exists self', add_row [PStr "20134"; PNone] table_with_header = (Ok tt, self').
Proof.
  apply (add_row_of_texts_returns table_with_header [PStr "20134"; PNone]).
  - constructor; [right; eexists; reflexivity|]. constructor; [left; reflexivity|]. constructor.
  - right; right. reflexivity.
  - left. reflexivity.
Defined.

Lemma rectangular_ext (a b : Texttable) :
  _row_size b = _row_size a -> _rows b = _rows a -> _header b = _header a ->
  rectangular a -> rectangular b.
Proof. unfold rectangular. intros -> -> ->. exact id. Qed.

(** The size check keeps a table rectangular, and leaves the count at the
    length it has let pass. *)
Lemma rectangular_check (self : Texttable) (n : Z) :
  rectangular self -> n <> 0 ->
  let '(r, self1) := _check_row_size n self in
  rectangular self1
  /\ _rows self1 = _rows self /\ _header self1 = _header self
  /\ (r = Ok tt -> _row_size self1 = Some n).
Proof.
  intros Hrect Hn.
  destruct (check_row_size_cases n self) as [(m & Hf & Hne & ->)|[[Hf ->]|[Hz ->]]].
  - repeat split; [exact Hrect|discriminate].
  - repeat split; [exact Hrect|]. intros _. apply Hf.
  - assert (Hempty : _rows self = [] /\ _header self = []).
    { unfold rectangular in Hrect. destruct Hz as [Hz|Hz]; rewrite Hz in Hrect; [exact Hrect|].
      destruct Hrect as [Hrect _]. congruence. }
    destruct Hempty as [Hr Hh].
    split; [|split; [reflexivity|split; [reflexivity|intros _; reflexivity]]].
    unfold rectangular. cbn. rewrite Hr, Hh. split; [exact Hn|]. split; [constructor|auto].
Qed.

Lemma snd_bind {A B} (m : M A) (k : A -> M B) (self : Texttable) :
  snd (bind m k self)
  = match m self with
    | (Ok a, self1) => snd (k a self1)
    | (Raise _, self1) => self1
    end.
Proof. unfold bind. destruct (m self) as [[a|e] self1]; reflexivity. Qed.

Section Rectangular.

Variable float_repr : Q -> string.

(** X10.  The rows stay rectangular.  A fresh table is rectangular (no
    count, no row, no header), and on a rectangular table every call of
    [add_row], [header], [set_cols_width], [set_cols_align],
    [set_cols_valign] and [set_cols_dtype] with an array that is not empty
    leaves a rectangular table, whether it returns or raises: all rows and
    the header have as many cells as the column count says.  So does
    [reset]. *)
Theorem rows_stay_rectangular :
  (forall max_width, rectangular (init max_width))
  /\ (forall self : Texttable,
        rectangular self ->
        (forall array : list pyval,
            array <> [] ->
            rectangular (snd (add_row array self))
            /\ rectangular (snd (header float_repr array self))
            /\ rectangular (snd (set_cols_width array self)))
        /\ (forall array : list string,
              array <> [] ->
              rectangular (snd (set_cols_align array self))
              /\ rectangular (snd (set_cols_valign array self))
              /\ rectangular (snd (set_cols_dtype array self)))
        /\ rectangular (snd (reset self))).
Proof.
  split; [intros w; split; reflexivity|].
  intros self Hrect.
  assert (Hlen : forall A (l : list A), l <> [] -> llen l <> 0).
  { intros A [|x l] H; [congruence|]. unfold llen. simpl. lia. }
  split; [|split].
  - intros array Hne. specialize (Hlen _ _ Hne).
    pose proof (rectangular_check self (llen array) Hrect Hlen) as Hcheck.
    unfold add_row, header, set_cols_width. rewrite !snd_bind.
    destruct (_check_row_size (llen array) self) as [[[]|e] self1];
      destruct Hcheck as (Hrect1 & Hrows1 & Hhead1 & Hsize1); [|repeat split; exact Hrect1].
    specialize (Hsize1 eq_refl). split; [|split].
    + unfold bind, get, lift, modify, ret, raise. cbv beta iota.
      destruct (_dtype self1) as [d|]; [|rewrite Hsize1]; cbv beta iota;
        match goal with
        | |- context [rmap ?f ?l] => destruct (rmap f l) as [cells|e] eqn:Hcells
        end; cbn [snd];
        try (eapply rectangular_ext; [| | |exact Hrect1]; reflexivity).
      all: apply rmap_length in Hcells; rewrite length_enumerate in Hcells.
      all: unfold rectangular in *; simpl; rewrite Hsize1 in *;
        destruct Hrect1 as (Hnz & Hall & Hhead); (split; [exact Hnz|split; [|exact Hhead]]);
        apply Forall_app; (split; [exact Hall|]); constructor; [|constructor];
        unfold llen; rewrite Hcells; reflexivity.
    + unfold modify. cbn [snd]. unfold rectangular in *. simpl. rewrite Hsize1 in *.
      destruct Hrect1 as (Hnz & Hall & Hhead). split; [exact Hnz|split; [exact Hall|]].
      right. unfold llen. rewrite length_map. reflexivity.
    + unfold bind, lift, modify, raise.
      destruct (rmap py_int array) as [ints|e]; [|exact Hrect1].
      destruct (reduce Z.min ints) as [smallest|e]; [|exact Hrect1].
      destruct (smallest <=? 0); [exact Hrect1|].
      cbn [snd]. eapply rectangular_ext; [| | |exact Hrect1]; reflexivity.
  - intros array Hne. specialize (Hlen _ _ Hne).
    pose proof (rectangular_check self (llen array) Hrect Hlen) as Hcheck.
    unfold set_cols_align, set_cols_valign, set_cols_dtype. rewrite !snd_bind.
    destruct (_check_row_size (llen array) self) as [[[]|e] self1];
      destruct Hcheck as (Hrect1 & _); [|repeat split; exact Hrect1].
    repeat split; (eapply rectangular_ext; [| | |exact Hrect1]; reflexivity).
  - split; reflexivity.
Qed.

End Rectangular.

Lemma rows_stay_rectangular_witness :
  rectangular (snd (add_row [PStr "20134"; PStr "Example"] table_with_header)).
Proof.
  refine (proj1 (proj1 (proj2 (rows_stay_rectangular (fun _ => EmptyString))
                          table_with_header _) _ _)).
  - split; [discriminate|]. split; [constructor|right; reflexivity].
  - discriminate.
Defined.

(** *** Rendering twice *)

Lemma append_not_empty (a b : string) : b <> EmptyString -> a +:+ b <> EmptyString.
Proof. destruct a; [exact id|discriminate]. Qed.

Lemma build_hline_not_empty (self : Texttable) (is_header : bool) (l : string) :
  _build_hline self is_header = Ok l -> exists a s, l = String a s.
Proof.
  unfold _build_hline. destruct (the_width self) as [w|e]; [|discriminate]. simpl.
  assert (Hne : forall x, x +:+ nl <> EmptyString)
    by (intros x; apply append_not_empty; discriminate).
  destruct (_has_border self); intros [= <-].
  - match goal with
    | |- exists a s, ?x = _ => assert (Hx : x <> EmptyString); [|destruct x; [congruence|eauto]]
    end.
    repeat apply append_not_empty. discriminate.
  - specialize (Hne (join (_char_horiz self +:+
                       (if _has_vlines self then _char_corner self else _char_horiz self)
                       +:+ _char_horiz self)
                      (map (fun n => str_mul (_char_horiz self) n) w))).
    destruct is_header;
      match goal with
      | |- exists a s, ?x = _ => destruct x eqn:Hx; [|eauto]
      end.
    all: exfalso; revert Hx; apply append_not_empty; discriminate.
Qed.

Lemma with_hline_cases (self : Texttable) :
  with_hline self = self
  \/ exists a s, with_hline self = assign_hline_string (Some (String a s)) self.
Proof.
  unfold with_hline.
  destruct (_hline_string self) as [[|a s]|]; auto;
    destruct (_build_hline self false) as [l|e] eqn:Hl; auto;
    destruct (build_hline_not_empty _ _ _ Hl) as (a & s & ->); eauto.
Qed.

Lemma with_hline_again (self : Texttable) : with_hline (with_hline self) = with_hline self.
Proof.
  destruct (with_hline_cases self) as [Heq|(a & s & Heq)]; rewrite Heq; [exact Heq|reflexivity].
Qed.

Lemma repeatable_ret {A} (a : A) : repeatable (ret a).
Proof. intros self a' self' [= <- <-]. auto. Qed.

Lemma repeatable_lift {A} (r : result A) : repeatable (lift r).
Proof. intros self a' self' [= -> <-]. auto. Qed.

Lemma repeatable_raise {A} (e : exc) : repeatable (@raise A e).
Proof. intros self a' self' [=]. Qed.

Lemma repeatable_bind {A B} (m : M A) (k : A -> M B) :
  repeatable m -> (forall a, repeatable (k a)) -> repeatable (bind m k).
Proof.
  intros Hm Hk self b self'. unfold bind.
  destruct (m self) as [[a|e] self1] eqn:Hrun; [|discriminate].
  destruct (Hm _ _ _ Hrun) as [Hself1 ->]. intros Hrest.
  destruct (Hk _ _ _ _ Hrest) as [Hself' Hagain].
  assert (Hsame : with_hline self1 = with_hline self)
    by (destruct Hself1 as [->| ->]; [reflexivity|apply with_hline_again]).
  rewrite Hsame in *. split; [|exact Hagain].
  destruct Hself' as [->| ->]; auto.
Qed.

(** A step that reads the table, but not the kept line *)
Lemma repeatable_read {A} (k : Texttable -> M A) :
  (forall self, repeatable (k self)) ->
  (forall self l, k (assign_hline_string l self) = k self) ->
  repeatable (bind get k).
Proof.
  intros Hk Hread self a self'. unfold bind, get. intros Hrun.
  destruct (Hk _ _ _ _ Hrun) as [Hself' Hagain]. split; [exact Hself'|].
  destruct (with_hline_cases self) as [Heq|(c & s & Heq)].
  - rewrite Heq in *. exact Hagain.
  - rewrite Heq at 1. rewrite Hread. exact Hagain.
Qed.

Lemma repeatable_hline : repeatable _hline.
Proof.
  intros self l self'. unfold _hline, bind, get, lift, modify, ret, with_hline.
  destruct (_hline_string self) as [[|c s]|] eqn:Hkept.
  - change (_build_hline (assign_hline_string ?x self)) with (_build_hline self).
    destruct (_build_hline self false) as [l'|e] eqn:Hl; intros [= <- <-].
    destruct (build_hline_not_empty _ _ _ Hl) as (c & s & ->). auto.
  - intros [= <- <-]. rewrite Hkept. auto.
  - destruct (_build_hline self false) as [l'|e] eqn:Hl; intros [= <- <-].
    destruct (build_hline_not_empty _ _ _ Hl) as (c & s & ->). auto.
Qed.

Lemma repeatable_hline_header : repeatable _hline_header.
Proof.
  intros self l self'. unfold _hline_header. intros [= Hl <-]. split; [auto|].
  destruct (with_hline_cases self) as [->|(c & s & ->)]; rewrite <- Hl; reflexivity.
Qed.

Create HintDb repeatable.
#[local] Hint Resolve repeatable_ret repeatable_lift repeatable_raise repeatable_hline
  repeatable_hline_header : repeatable.

Ltac repeatable :=
  repeat first
    [ progress auto with repeatable
    | match goal with
      | |- repeatable (bind get _) =>
          apply repeatable_read; [intros ?|intros ? ?; reflexivity]
      | |- repeatable (bind _ _) => apply repeatable_bind; [|intros ?]
      | |- repeatable (if ?b then _ else _) => destruct b
      | |- repeatable (match ?x with _ => _ end) => destruct x
      end ].

Lemma repeatable_draw_rows (rows : list (list string)) : forall out length,
  repeatable (draw_rows rows out length).
Proof.
  induction rows as [|row rows IH]; intros out length; cbn [draw_rows]; repeatable.
Qed.

#[local] Hint Resolve repeatable_draw_rows : repeatable.








(** *** The header line *)






(** *** Decorations *)

Lemma flag_is_bit (deco k : Z) :
  0 <= k -> (Z.land deco (Z.shiftl 1 k) >? 0) = Z.testbit deco k.
Proof.
  intros Hk. rewrite Z.shiftl_1_l.
  destruct (Z.testbit deco k) eqn:Hbit.
  - assert (Heq : Z.land deco (2 ^ k) = 2 ^ k).
    { apply Z.bits_inj'. intros n _. rewrite Z.land_spec.
      destruct (Z.eq_dec k n) as [<-|Hne].
      - rewrite Hbit, Z.pow2_bits_true by exact Hk. reflexivity.
      - rewrite Z.pow2_bits_false by exact Hne. apply andb_false_r. }
    rewrite Heq. apply Z.gtb_lt. apply Z.pow_pos_nonneg; lia.
  - assert (Heq : Z.land deco (2 ^ k) = 0).
    { apply Z.bits_inj'. intros n _. rewrite Z.land_spec, Z.bits_0.
      destruct (Z.eq_dec k n) as [<-|Hne].
      - rewrite Hbit. reflexivity.
      - rewrite Z.pow2_bits_false by exact Hne. apply andb_false_r. }
    rewrite Heq. reflexivity.
Qed.

(** X13.  The decorations are the four lowest bits of what [set_deco] is
    given: border, line below the header, lines between the rows, lines
    between the columns.  So each of them is switched on by or-ing its
    constant in, whatever the others are. *)
Theorem decorations_are_bits (deco : Z) (self : Texttable) :
  let self' := snd (set_deco deco self) in
  (_has_border self' = Z.testbit deco 0
   /\ _has_header self' = Z.testbit deco 1
   /\ _has_hlines self' = Z.testbit deco 2
   /\ _has_vlines self' = Z.testbit deco 3)
  /\ forall border header hlines vlines : bool,
       deco = Z.lor (Z.lor (Z.lor (if border then BORDER else 0)
                                  (if header then HEADER else 0))
                           (if hlines then HLINES else 0))
                    (if vlines then VLINES else 0) ->
       _has_border self' = border /\ _has_header self' = header
       /\ _has_hlines self' = hlines /\ _has_vlines self' = vlines.
Proof.
  cbn zeta.
  assert (Hbits : _has_border (snd (set_deco deco self)) = Z.testbit deco 0
                  /\ _has_header (snd (set_deco deco self)) = Z.testbit deco 1
                  /\ _has_hlines (snd (set_deco deco self)) = Z.testbit deco 2
                  /\ _has_vlines (snd (set_deco deco self)) = Z.testbit deco 3).
  { unfold _has_border, _has_header, _has_hlines, _has_vlines, set_deco, modify. cbn [snd].
    change (_deco (assign_deco deco self)) with deco.
    change BORDER with (Z.shiftl 1 0).
    unfold HEADER, HLINES, VLINES. rewrite !flag_is_bit by lia. auto. }
  split; [exact Hbits|].
  intros border header hlines vlines ->. destruct Hbits as (-> & -> & -> & ->).
  destruct border, header, hlines, vlines; repeat split.
Qed.

(** *** The lines of a row *)

Lemma append_assoc (a b c : string) : (a +:+ b) +:+ c = a +:+ (b +:+ c).
Proof.
  induction a as [|x a IH]; [reflexivity|].
  change (String x ((a +:+ b) +:+ c) = String x (a +:+ (b +:+ c))). rewrite IH. reflexivity.
Qed.

Lemma strip_plain (s : string) : occurs ESC s = false -> strip_ansi s = s.
Proof. intros H. apply scan_plain, H. Qed.

(** A cell that fits is drawn on as many characters as its column is wide,
    and a blank, whatever its alignment; two more where a separator follows. *)
Lemma draw_cell_length (self : Texttable) (isheader : bool) (i : nat) (count length : Z)
    (cell : list string) (width : Z) (align : string) (cell_line : string) :
  single_chars self ->
  cell !! i = Some cell_line ->
  occurs ESC cell_line = false -> len cell_line <= width ->
  exists s,
    draw_cell self isheader i count length cell width align = Ok s
    /\ len s = width + 1 + (if length <? count then 2 else 0).
Proof.
  intros (_ & Hvert & _) Hline Hplain Hfit. unfold draw_cell. rewrite Hline.
  rewrite (strip_plain _ Hplain). eexists. split; [reflexivity|].
  set (fill := width - len cell_line).
  assert (Hfill : 0 <= fill) by (subst fill; lia).
  assert (Hhalf : 0 <= fill / 2) by (apply Z.div_pos; lia).
  assert (Hrest : 0 <= fill / 2 + fill mod 2)
    by (pose proof (Z.mod_pos_bound fill 2); lia).
  assert (Hsum : fill / 2 + (fill / 2 + fill mod 2) = fill)
    by (pose proof (Z.div_mod fill 2); lia).
  rewrite len_append.
  assert (Hsep : len (if length <? count
                      then (if _has_vlines self then _char_vert self else " ") +:+ " "
                      else "") = if length <? count then 2 else 0).
  { destruct (length <? count); [|reflexivity]. rewrite len_append.
    destruct (_has_vlines self); [rewrite Hvert|]; reflexivity. }
  rewrite Hsep. f_equal.
  repeat match goal with
         | |- context [if ?b then _ else _] =>
             match b with
             | String.eqb _ _ => destruct b
             end
         end;
    rewrite !len_append, ?len_str_mul by assumption;
    change (len " ") with 1; subst fill; lia.
Qed.

(** The cells of one physical line *)
Lemma draw_cells_length (self : Texttable) (isheader : bool) (i : nat) (height : nat)
    (count : Z) (cells : list (list string)) :
  single_chars self -> (i < height)%nat ->
  forall (widths : list Z) (aligns : list string) (out : string) (length : Z),
    fits cells widths height ->
    List.length aligns = List.length cells ->
    length + llen cells = count ->
    exists s,
      rfold
        (fun '(out, length) '(cell, width, align) =>
           let length := length + 1 in
           rbind (draw_cell self isheader i count length cell width align)
                 (fun s => Ok (out +:+ s, length)))
        (zip3 cells widths aligns) (out, length)
      = Ok (out +:+ s, count)
      /\ len s = sum_of widths + 3 * llen widths - (if cells is [] then 0 else 2).
Proof.
  intros Hchars Hi.
  induction cells as [|cell cells IH]; intros widths aligns out length Hfits Hal Hcount.
  - inversion Hfits; subst. exists ""%string. rewrite append_empty_r.
    unfold llen. cbn [List.length]. change (Z.of_nat 0) with 0. rewrite Z.add_0_r.
    split; reflexivity.
  - inversion Hfits as [|? width ? widths' [Hheight Hlines] Hfits']; subst.
    destruct aligns as [|align aligns]; [discriminate|].
    cbn [zip3]. rewrite rfold_cons.
    destruct (lookup_lt_is_Some_2 cell i) as [cell_line Hline]; [lia|].
    assert (Hin : occurs ESC cell_line = false /\ len cell_line <= width).
    { rewrite Forall_forall in Hlines. apply Hlines.
      apply list_elem_of_lookup. exists i. exact Hline. }
    destruct Hin as [Hplain Hfit].
    destruct (draw_cell_length self isheader i (length + llen (cell :: cells)) (length + 1)
                cell width align cell_line Hchars Hline Hplain Hfit) as (s1 & -> & Hs1).
    cbn [rbind].
    destruct (IH widths' aligns (out +:+ s1) (length + 1) Hfits') as (s2 & Hrun & Hs2).
    { simpl in Hal. lia. }
    { unfold llen. simpl List.length. lia. }
    exists (s1 +:+ s2). split; [rewrite <- append_assoc; exact Hrun|].
    rewrite len_append, Hs1, Hs2. unfold sum_of, llen. cbn [fold_right List.length].
    apply Forall2_length in Hfits'.
    destruct cells as [|cell' cells].
    + destruct widths'; [|discriminate]. cbn [List.length fold_right].
      rewrite (proj2 (Z.ltb_ge _ _)) by lia. lia.
    + rewrite (proj2 (Z.ltb_lt _ _)) by (cbn [List.length]; lia).
      cbn [List.length] in *. lia.
Qed.

Lemma draw_lines_length (self : Texttable) (isheader : bool) (height : nat)
    (cells : list (list string)) (widths : list Z) (aligns : list string) :
  single_chars self ->
  cells <> [] ->
  fits cells widths height ->
  List.length aligns = List.length cells ->
  forall (lines : list nat) (out : string),
    Forall (fun i => (i < height)%nat) lines ->
    exists drawn,
      rfold
        (fun out i =>
           let out := if _has_border self then out +:+ _char_vert self +:+ " " else out in
           rbind
             (rfold
                (fun '(out, length) '(cell, width, align) =>
                   let length := length + 1 in
                   rbind (draw_cell self isheader i (llen cells) length cell width align)
                         (fun s => Ok (out +:+ s, length)))
                (zip3 cells widths aligns) (out, 0))
             (fun '(out, _) =>
                Ok (out +:+ (if _has_border self then _char_vert self else "") +:+ nl)))
        lines out
      = Ok (out +:+ fold_right String.append EmptyString drawn)
      /\ List.length drawn = List.length lines
      /\ Forall (fun l => len l = row_line_length self widths + 1
                          /\ exists body, l = body +:+ nl) drawn.
Proof.
  intros Hchars Hne Hfits Hal lines.
  induction lines as [|i lines IH]; intros out Hlines.
  - exists []. cbn. rewrite append_empty_r. repeat split. constructor.
  - inversion Hlines as [|? ? Hi Hlines']; subst. rewrite rfold_cons. cbv beta zeta.
    set (start := if _has_border self then _char_vert self +:+ " " else ""%string).
    assert (Hstart : (if _has_border self then out +:+ _char_vert self +:+ " " else out)
                     = out +:+ start).
    { subst start. destruct (_has_border self); [reflexivity|].
      rewrite append_empty_r. reflexivity. }
    rewrite Hstart.
    destruct (draw_cells_length self isheader i height (llen cells) cells Hchars Hi
                widths aligns (out +:+ start) 0 Hfits Hal) as (s & Hrun & Hs); [lia|].
    cbv zeta in Hrun. rewrite Hrun. cbn [rbind].
    set (line := start +:+ s +:+ (if _has_border self then _char_vert self else "") +:+ nl).
    destruct (IH (out +:+ line) Hlines') as (drawn & Hdrawn & Hcount & Hall).
    exists (line :: drawn). split; [|split].
    + cbn [fold_right]. rewrite <- (append_assoc out line).
      replace (((out +:+ start) +:+ s)
               +:+ (if _has_border self then _char_vert self else "") +:+ nl)
        with (out +:+ line) by (subst line; rewrite !append_assoc; reflexivity).
      exact Hdrawn.
    + simpl. lia.
    + constructor; [|exact Hall]. split.
      * subst line start. destruct Hchars as (_ & Hvert & _).
        unfold row_line_length. rewrite !len_append, Hs.
        destruct cells; [congruence|].
        destruct (_has_border self); rewrite ?len_append, ?Hvert;
          change (len nl) with 1; change (len " ") with 1; change (len "") with 0; lia.
      * subst line. eexists. rewrite <- !append_assoc. reflexivity.
Qed.

(** X14.  The lines of a row.  When the cells [_splitit] returns fit the
    widths (as many cells and alignments as widths, [height] physical
    lines in every cell, each of them plain text no longer than its
    column), [_draw_line] returns [height] lines, one behind the other,
    each ended by a newline and all of the same length: the widths and
    [3 * N + 1] more with the border on, which is the length of the
    horizontal lines, and [3 * N - 2] more with the border off. *)
Theorem row_lines_have_one_length (self : Texttable) (line : list string) (isheader : bool)
    (cells : list (list string)) (widths : list Z) (aligns : list string) (height : nat) :
  single_chars self ->
  _splitit self line isheader = Ok cells ->
  _width self = Some widths ->
  _align self = Some aligns ->
  cells <> [] ->
  fits cells widths height ->
  List.length aligns = List.length cells ->
  exists drawn,
    _draw_line self line isheader = Ok (fold_right String.append EmptyString drawn)
    /\ List.length drawn = height
    /\ Forall (fun l => len l = row_line_length self widths + 1
                        /\ exists body, l = body +:+ nl) drawn.
Proof.
  intros Hchars Hsplit Hw Ha Hne Hfits Hal.
  unfold _draw_line, the_width. rewrite Hsplit, Hw, Ha. cbn [rbind].
  destruct cells as [|first rest] eqn:Hcells; [congruence|]. rewrite <- Hcells in *.
  assert (Hheight : List.length first = height).
  { rewrite Hcells in Hfits. apply Forall2_cons_inv_l in Hfits as (w & ws & [H _] & _).
    exact H. }
  destruct (draw_lines_length self isheader height cells widths aligns Hchars Hne Hfits Hal
              (seq 0 (List.length first)) ""%string) as (drawn & Hdrawn & Hcount & Hall).
  { rewrite Hheight. apply Forall_forall. intros i Hin.
    apply list_elem_of_In, in_seq in Hin. lia. }
  exists drawn. split; [exact Hdrawn|]. split; [|exact Hall].
  rewrite Hcount, length_seq. exact Hheight.
Qed.

Lemma row_lines_have_one_length_witness :
  exists drawn,
    _draw_line (snd (draw table_auto_row)) ["id"; "Example"]%string false
    = Ok (fold_right String.append EmptyString drawn)
    /\ List.length drawn = 1%nat
    /\ Forall (fun l => len l = row_line_length (snd (draw table_auto_row)) [2; 7] + 1
                        /\ exists body, l = body +:+ nl) drawn.
Proof.
  apply (row_lines_have_one_length (snd (draw table_auto_row)) ["id"; "Example"]%string false
           [["id"]; ["Example"]]%string [2; 7] ["l"; "l"]%string 1).
  - repeat split.
  - vm_compute. reflexivity.
  - vm_compute. reflexivity.
  - vm_compute. reflexivity.
  - discriminate.
  - repeat constructor; vm_compute; discriminate.
  - reflexivity.
Defined.
